(** * librvth: private functions of the RVT-H image handler (rvth_p.c)

    A shallow embedding of [rvth_make_writable], [rvth_is_block_empty] and
    [rvth_write_BankEntry] together with the data they work on, and of the
    plain reader's construction policy (reader_plain.h). *)

From Stdlib Require Import ZArith List Lia Bool.
From Stdlib.Strings Require Import Byte.
From Stdlib.Strings Require Ascii String.
Import ListNotations.
Open Scope Z_scope.

(* ================================================================== *)
(** * Bytes and fixed-width integers *)

Definition byte_to_Z (b : byte) : Z := Z.of_N (Byte.to_N b).

Definition byte_of_Z (z : Z) : byte :=
  match Byte.of_N (Z.to_N (z mod 256)) with
  | Some b => b
  | None => x00
  end.

Definition byte_is_zero (b : byte) : bool := byte_to_Z b =? 0.

(** [unsigned int] / [uint32_t] arithmetic wraps modulo 2^32. *)
Definition UINT32_MAX : Z := 4294967295.
Definition uint32 (z : Z) : Z := z mod 4294967296.

(** The memory image of a [uint32_t] that holds [cpu_to_be32(v)]: the four
    bytes of [v], most significant first, whatever the host byte order. *)
Definition cpu_to_be32 (v : Z) : list byte :=
  [ byte_of_Z (Z.shiftr v 24); byte_of_Z (Z.shiftr v 16);
    byte_of_Z (Z.shiftr v 8);  byte_of_Z v ].

(** A [uint64_t] read through a [const uint64_t*] that aliases a byte
    buffer (little-endian host; the zero test below does not depend on the
    byte order). *)
Fixpoint le_bytes_to_Z (l : list byte) : Z :=
  match l with
  | [] => 0
  | b :: t => Z.lor (byte_to_Z b) (Z.shiftl (le_bytes_to_Z t) 8)
  end.

(** [block64[k]]: the k-th 64-bit word at a pointer into a byte buffer,
    the pointer being the remaining suffix of the buffer.  Reading past
    the end of the buffer has no defined result. *)
Definition load64 (block64 : list byte) (k : nat) : option Z :=
  let w := firstn 8 (skipn (8 * k) block64) in
  if Nat.eqb (length w) 8 then Some (le_bytes_to_Z w) else None.

(** Flipping bit [k] (0..7) of a byte, and of the byte at index [i] of a
    buffer. *)
Definition flip_bit (k : nat) (b : byte) : byte :=
  byte_of_Z (Z.lxor (byte_to_Z b) (Z.shiftl 1 (Z.of_nat k))).

Fixpoint flip_bit_at (i k : nat) (block : list byte) : list byte :=
  match block, i with
  | [], _ => []
  | b :: t, O => flip_bit k b :: t
  | b :: t, S i' => b :: flip_bit_at i' k t
  end.

(* ================================================================== *)
(** * rvth_is_block_empty *)

Module BlockScan.

Definition obind {A B} (o : option A) (f : A -> option B) : option B :=
  match o with Some a => f a | None => None end.

#[local] Notation "x <- o ; k" := (obind o (fun x => k))
  (at level 200, o at level 100, k at level 200, right associativity).

(** The body of the [for] loop: [i] counts the 64-byte groups left,
    [block64] is the moving pointer ([block64 += 8] drops 64 bytes). *)
Fixpoint scan_groups (i : nat) (block64 : list byte) : option bool :=
  match i with
  | O => Some true
  | S i' =>
    x <- load64 block64 0;
    x1 <- load64 block64 1; let x := Z.lor x x1 in
    x2 <- load64 block64 2; let x := Z.lor x x2 in
    x3 <- load64 block64 3; let x := Z.lor x x3 in
    x4 <- load64 block64 4; let x := Z.lor x x4 in
    x5 <- load64 block64 5; let x := Z.lor x x5 in
    x6 <- load64 block64 6; let x := Z.lor x x6 in
    x7 <- load64 block64 7; let x := Z.lor x x7 in
    if negb (x =? 0) then Some false
    else scan_groups i' (skipn 64 block64)
  end.

End BlockScan.

(** [bool rvth_is_block_empty(const uint8_t *block, unsigned int size)].
    [None] stands for the failed [assert(size % 64 == 0)] and for a read
    outside the buffer. *)
Definition rvth_is_block_empty (block : list byte) (size : Z) : option bool :=
  if size mod 64 =? 0
  then BlockScan.scan_groups (Z.to_nat (size / 8 / 8)) block
  else None.

(* ================================================================== *)
(** * Constants *)

(** <errno.h> *)
Definition EIO : Z := 5.
Definition EINVAL : Z := 22.
Definition ERANGE : Z := 34.

(** rvth_enums.h *)
Definition RVTH_BANK_COUNT : Z := 8.

Inductive RvtH_BankType_e : Set :=
| RVTH_BankType_Empty
| RVTH_BankType_Unknown
| RVTH_BankType_GCN
| RVTH_BankType_Wii_SL
| RVTH_BankType_Wii_DL
| RVTH_BankType_Wii_DL_Bank2.

Inductive RvtH_ImageType_e : Set :=
| RVTH_ImageType_Unknown
| RVTH_ImageType_HDD_Reader
| RVTH_ImageType_HDD_Image
| RVTH_ImageType_GCM
| RVTH_ImageType_GCM_SDK.

(** rvth.h: the bank table lives at byte 0x60000000, blocks are 512 bytes,
    and the bank type magics are "GC1L", "NN1L" and "NN2L"; an empty bank
    has magic 0 (rvth_enums.h: "Magic is 0"). *)
Definition RVTH_BANKTABLE_ADDRESS : Z := 0x60000000.
Definition RVTH_BLOCK_SIZE : Z := 512.

Definition NHCD_BankType_Empty : Z := 0.
Definition NHCD_BankType_GCN : Z := 0x4743314C.
Definition NHCD_BankType_Wii_SL : Z := 0x4E4E314C.
Definition NHCD_BankType_Wii_DL : Z := 0x4E4E324C.

(** Modelled from the spec: the macros [NHCD_BANKTABLE_ADDRESS_LBA] and
    [LBA_TO_BYTES] (nhcd_structs.h) are missing from the sources.  The
    table's base LBA is its byte address in 512-byte sectors, and a slot's
    byte offset is its LBA times 512. *)
Definition NHCD_BANKTABLE_ADDRESS_LBA : Z :=
  RVTH_BANKTABLE_ADDRESS / RVTH_BLOCK_SIZE.
Definition LBA_TO_BYTES (x : Z) : Z := x * RVTH_BLOCK_SIZE.

(** The [RvtH_Errors] enumerators used here.  Their header is missing from
    the sources, so their values are parameters; rvth_p.c documents the
    convention "if negative, POSIX error; otherwise, see RvtH_Errors". *)
Class RvtH_Errors : Set := {
  RVTH_ERROR_BANK_UNKNOWN : Z;
  RVTH_ERROR_BANK_DL_2 : Z;
  RVTH_ERROR_NOT_A_DEVICE : Z;
  RVTH_ERROR_NOT_HDD_IMAGE : Z
}.

Definition RvtH_Errors_codes (E : RvtH_Errors) : list Z :=
  [RVTH_ERROR_BANK_UNKNOWN; RVTH_ERROR_BANK_DL_2;
   RVTH_ERROR_NOT_A_DEVICE; RVTH_ERROR_NOT_HDD_IMAGE].

(** The enumerators are distinct error values above [RVTH_ERROR_SUCCESS = 0]. *)
Definition RvtH_Errors_valid (E : RvtH_Errors) : Prop :=
  0 < RVTH_ERROR_BANK_UNKNOWN /\ 0 < RVTH_ERROR_BANK_DL_2 /\
  0 < RVTH_ERROR_NOT_A_DEVICE /\ 0 < RVTH_ERROR_NOT_HDD_IMAGE /\
  NoDup (RvtH_Errors_codes E).

(** [rvth_timestamp_create] (rvth_time.c, missing from the sources): the
    ASCII date and time of a [time_t], taken as a parameter. *)
Class RvtH_Time : Type := {
  rvth_timestamp_create : Z -> list byte
}.

(* ================================================================== *)
(** * Data model *)

(** In-memory bank entry ([RvtH_BankEntry]); only the fields that
    rvth_write_BankEntry reads. *)
Record RvtH_BankEntry : Set := mkBankEntry {
  lba_start : Z;            (* uint32_t *)
  lba_len : Z;              (* uint32_t *)
  timestamp : Z;            (* time_t *)
  type : RvtH_BankType_e;
  is_deleted : bool
}.

(** The handle ([RvtH]).  Its [f_img] is the backing store of the [World]
    below; [image_type] is the C field [type]. *)
Record RvtH : Set := mkRvtH {
  bank_count : Z;           (* unsigned int *)
  image_type : RvtH_ImageType_e;
  entries : list RvtH_BankEntry
}.

(** On-disk bank entry ([NHCD_BankEntry], laid out as [RVTH_BankEntry] in
    rvth.h).  The integer fields hold the value whose big-endian image is
    stored. *)
Record NHCD_BankEntry : Set := mkNHCD {
  nhcd_type : Z;                 (* [0x000] *)
  nhcd_all_zero : list byte;     (* [0x004] char[14] *)
  nhcd_timestamp : list byte;    (* [0x012] mdate[8], mtime[6] *)
  nhcd_lba_start : Z;            (* [0x020] *)
  nhcd_lba_len : Z;              (* [0x024] *)
  nhcd_unk : list byte           (* [0x028] uint8_t[472] *)
}.

Definition sizeof_NHCD_BankEntry : Z := 512.

(** A fixed-size [char] array holding [l]: cut or zero-padded to [n]. *)
Definition char_array (n : nat) (l : list byte) : list byte :=
  firstn n (l ++ repeat x00 n).

(** The 512 bytes of an entry as they lie in memory. *)
Definition NHCD_BankEntry_bytes (e : NHCD_BankEntry) : list byte :=
  cpu_to_be32 (nhcd_type e)
  ++ char_array 14 (nhcd_all_zero e)
  ++ char_array 14 (nhcd_timestamp e)
  ++ cpu_to_be32 (nhcd_lba_start e)
  ++ cpu_to_be32 (nhcd_lba_len e)
  ++ char_array 472 (nhcd_unk e).

(** [memset(&nhcd_entry, 0, sizeof(nhcd_entry))] *)
Definition NHCD_BankEntry_zero : NHCD_BankEntry :=
  mkNHCD 0 (repeat x00 14) (repeat x00 14) 0 0 (repeat x00 472).

(** ** Backing store *)

(** Modelled from the spec: [RefFile] and its functions (ref_file.c) are
    missing from the sources.  A backing store is an addressable byte range
    with a total size, a position, a writability state and a device-vs-file
    classification. *)
Record RefFile : Type := mkRefFile {
  ref_data : Z -> byte;
  ref_size : Z;
  ref_pos : Z;
  ref_writable : bool;
  ref_device : bool
}.

(** What the platform will answer to the fallible calls: the return value
    of the escalation, whether the seek fails (and the errno it stores, if
    any), how many bytes the store accepts, and the errno a short write
    stores, if any. *)
Record Platform : Set := mkPlatform {
  make_writable_ret : Z;
  seek_error : option (option positive);
  write_room : Z;
  write_error : option positive
}.

(** Calls made on the backing store, most recent first. *)
Inductive io_event : Set :=
| EvIsWritable
| EvIsDevice
| EvMakeWritable
| EvSeek (offset : Z)
| EvWrite (pos : Z) (buf : list byte) (written : Z).

Record World : Type := mkWorld {
  f_img : RefFile;
  errno : Z;
  time_now : Z;
  platform : Platform;
  io_log : list io_event
}.

Definition set_errno (e : Z) (w : World) : World :=
  mkWorld (f_img w) e (time_now w) (platform w) (io_log w).

Definition set_f_img (f : RefFile) (w : World) : World :=
  mkWorld f (errno w) (time_now w) (platform w) (io_log w).

Definition log_event (ev : io_event) (w : World) : World :=
  mkWorld (f_img w) (errno w) (time_now w) (platform w) (ev :: io_log w).

Definition store_errno (e : option positive) (w : World) : World :=
  match e with
  | Some p => set_errno (Z.pos p) w
  | None => w
  end.

(** ** Computations on the world; [None] is undefined behaviour *)

Definition M (A : Type) : Type := World -> option (A * World).

Definition ret {A} (a : A) : M A := fun w => Some (a, w).

Definition bind {A B} (m : M A) (f : A -> M B) : M B :=
  fun w => match m w with
           | Some (a, w') => f a w'
           | None => None
           end.

Definition modify (f : World -> World) : M unit := fun w => Some (tt, f w).
Definition gets {A} (f : World -> A) : M A := fun w => Some (f w, w).

Declare Scope rvth_scope.
Delimit Scope rvth_scope with rvth.
Notation "x <- m ;; k" := (bind m (fun x => k))
  (at level 61, m at next level, right associativity) : rvth_scope.
Notation "m ;; k" := (bind m (fun _ => k))
  (at level 61, right associativity) : rvth_scope.
Open Scope rvth_scope.

(** ** The RefFile interface *)

Definition written_bytes (d : Z -> byte) (pos : Z) (buf : list byte)
  : Z -> byte :=
  fun o =>
    if (pos <=? o) && (o <? pos + Z.of_nat (length buf))
    then nth (Z.to_nat (o - pos)) buf x00
    else d o.

Definition ref_is_writable : M bool :=
  fun w => Some (ref_writable (f_img w), log_event EvIsWritable w).

Definition ref_is_device : M bool :=
  fun w => Some (ref_device (f_img w), log_event EvIsDevice w).

(** The escalation answers with the platform's code and, on 0, leaves the
    store writable. *)
Definition ref_make_writable : M Z :=
  fun w =>
    let r := make_writable_ret (platform w) in
    let f := f_img w in
    let f' := if r =? 0
              then mkRefFile (ref_data f) (ref_size f) (ref_pos f) true
                             (ref_device f)
              else f in
    Some (r, log_event EvMakeWritable (set_f_img f' w)).

(** [ref_seeko(f, offset, SEEK_SET)]: 0 and the position moved, or -1. *)
Definition ref_seeko (offset : Z) : M Z :=
  fun w =>
    match seek_error (platform w) with
    | None =>
      let f := f_img w in
      let f' := mkRefFile (ref_data f) (ref_size f) offset (ref_writable f)
                          (ref_device f) in
      Some (0, log_event (EvSeek offset) (set_f_img f' w))
    | Some e => Some (-1, log_event (EvSeek offset) (store_errno e w))
    end.

(** [ref_write(ptr, 1, nmemb, f)]: the store takes the first [n] bytes at
    its position, [n] being all [nmemb] unless the store is read-only or
    has less room; returns [n]. *)
Definition ref_write (buf : list byte) (nmemb : Z) : M Z :=
  fun w =>
    let f := f_img w in
    let n := if ref_writable f
             then Z.max 0 (Z.min nmemb (write_room (platform w)))
             else 0 in
    let f' := mkRefFile
                (written_bytes (ref_data f) (ref_pos f)
                               (firstn (Z.to_nat n) buf))
                (Z.max (ref_size f) (ref_pos f + n))
                (ref_pos f + n) (ref_writable f) (ref_device f) in
    let w' := log_event (EvWrite (ref_pos f) buf n) (set_f_img f' w) in
    Some (n, if n <? nmemb then store_errno (write_error (platform w)) w'
             else w').

(** Modelled from the spec: [rvth_is_hdd] (rvth.c) is missing from the
    sources.  The handle is an HDD-class store with a real bank table, as
    opposed to a standalone single-bank image (rvth_enums.h: "HDDs
    (multiple banks)", "GCMs (single banks)"). *)
Definition rvth_is_hdd (rvth : RvtH) : bool :=
  match image_type rvth with
  | RVTH_ImageType_HDD_Reader | RVTH_ImageType_HDD_Image => true
  | _ => false
  end.

(* ================================================================== *)
(** * rvth_p.c *)

Section RvtH_p.

Context {E : RvtH_Errors} {T : RvtH_Time}.

(** [int rvth_make_writable(RvtH *rvth)] *)
Definition rvth_make_writable (rvth : RvtH) : M Z :=
  writable <- ref_is_writable ;;
  if writable then
    (* RVT-H is already writable. *)
    ret 0
  else
    is_dev <- ref_is_device ;;
    if negb is_dev then
      (* This is not a device file. *)
      ret RVTH_ERROR_NOT_A_DEVICE
    else
      (* Make this writable. *)
      ref_make_writable.

(** [if (errno == 0) errno = EIO; return -errno;] *)
Definition return_errno : M Z :=
  e <- gets errno ;;
  (if e =? 0 then modify (set_errno EIO) else ret tt) ;;
  e <- gets errno ;;
  ret (- e).

(** [&rvth->entries[bank]], read. *)
Definition entries_at (rvth : RvtH) (bank : Z) : M RvtH_BankEntry :=
  fun w => match nth_error (entries rvth) (Z.to_nat bank) with
           | Some e => Some (e, w)
           | None => None
           end.

(** From the label [skip_creating_bank_entry] to the end: write the bank
    entry. *)
Definition skip_creating_bank_entry (bank : Z) (nhcd_entry : NHCD_BankEntry)
  : M Z :=
  r <- ref_seeko
         (LBA_TO_BYTES (uint32 (NHCD_BANKTABLE_ADDRESS_LBA + bank + 1))) ;;
  if negb (r =? 0) then
    (* Seek error. *)
    return_errno
  else
    size <- ref_write (NHCD_BankEntry_bytes nhcd_entry)
                      sizeof_NHCD_BankEntry ;;
    if negb (size =? sizeof_NHCD_BankEntry) then
      (* Write error. *)
      return_errno
    else
      (* Bank entry written successfully. *)
      ret 0.

(** After the [switch]: an empty or deleted bank keeps the record as it
    is; the others get the ASCII zeroes, the timestamp and the LBAs. *)
Definition fill_bank_entry (bank : Z) (rvth_entry : RvtH_BankEntry)
    (nhcd_entry : NHCD_BankEntry) : M Z :=
  if match type rvth_entry with RVTH_BankType_Empty => true | _ => false end
     || is_deleted rvth_entry
  then skip_creating_bank_entry bank nhcd_entry
  else
    now <- gets time_now ;;
    let nhcd_entry :=
      mkNHCD (nhcd_type nhcd_entry)
             (repeat x30 14)
             (rvth_timestamp_create now)
             (lba_start rvth_entry)
             (lba_len rvth_entry)
             (nhcd_unk nhcd_entry) in
    skip_creating_bank_entry bank nhcd_entry.

Definition with_type (t : Z) (e : NHCD_BankEntry) : NHCD_BankEntry :=
  mkNHCD t (nhcd_all_zero e) (nhcd_timestamp e) (nhcd_lba_start e)
         (nhcd_lba_len e) (nhcd_unk e).

(** [int rvth_write_BankEntry(RvtH *rvth, unsigned int bank)];
    [rvth = None] is the NULL pointer. *)
Definition rvth_write_BankEntry (rvth : option RvtH) (bank : Z) : M Z :=
  match rvth with
  | None =>
    modify (set_errno EINVAL) ;; ret (- EINVAL)
  | Some rvth =>
    if negb (rvth_is_hdd rvth) then
      (* Standalone disc image. No bank table. *)
      modify (set_errno EINVAL) ;; ret RVTH_ERROR_NOT_HDD_IMAGE
    else if bank_count rvth <=? bank then
      (* Bank number is out of range. *)
      modify (set_errno ERANGE) ;; ret (- ERANGE)
    else
      (* Make the RVT-H object writable. *)
      r <- rvth_make_writable rvth ;;
      if negb (r =? 0) then
        (* Could not make the RVT-H object writable. *)
        ret r
      else
        (* Create a new NHCD bank entry. *)
        let nhcd_entry := NHCD_BankEntry_zero in
        (* If the bank entry is deleted, then it should be
           all zeroes, so skip all of this. *)
        rvth_entry <- entries_at rvth bank ;;
        if is_deleted rvth_entry then
          skip_creating_bank_entry bank nhcd_entry
        else
          (* Check the bank type. *)
          match type rvth_entry with
          | RVTH_BankType_Empty =>
            fill_bank_entry bank rvth_entry
              (with_type NHCD_BankType_Empty nhcd_entry)
          | RVTH_BankType_GCN =>
            fill_bank_entry bank rvth_entry
              (with_type NHCD_BankType_GCN nhcd_entry)
          | RVTH_BankType_Wii_SL =>
            fill_bank_entry bank rvth_entry
              (with_type NHCD_BankType_Wii_SL nhcd_entry)
          | RVTH_BankType_Wii_DL =>
            fill_bank_entry bank rvth_entry
              (with_type NHCD_BankType_Wii_DL nhcd_entry)
          | RVTH_BankType_Unknown =>
            (* Unknown bank status... *)
            ret RVTH_ERROR_BANK_UNKNOWN
          | RVTH_BankType_Wii_DL_Bank2 =>
            (* Second bank of a dual-layer Wii disc image. *)
            ret RVTH_ERROR_BANK_DL_2
          end
  end.

End RvtH_p.

(* ================================================================== *)
(** * Observing a run *)

(** The events a run from [w] to [w'] added, most recent first. *)
Definition new_events (w w' : World) : list io_event :=
  firstn (length (io_log w') - length (io_log w)) (io_log w').

(** Seeks and writes are the calls that do I/O against the store. *)
Definition is_transfer (ev : io_event) : bool :=
  match ev with
  | EvSeek _ | EvWrite _ _ _ => true
  | _ => false
  end.

Definition no_transfer (l : list io_event) : Prop :=
  forallb (fun ev => negb (is_transfer ev)) l = true.

(** The buffers handed to [ref_write]. *)
Fixpoint written_buffers (l : list io_event) : list (list byte) :=
  match l with
  | [] => []
  | EvWrite _ buf _ :: t => buf :: written_buffers t
  | _ :: t => written_buffers t
  end.

(** Byte offset of table slot [j]: slot 0 is the header, slot [n + 1] is
    the entry of bank [n]. *)
Definition slot_offset (j : Z) : Z :=
  (NHCD_BANKTABLE_ADDRESS_LBA + j) * 512.

(** The 512 bytes of the store at [off]. *)
Definition bytes_at (f : RefFile) (off : Z) (n : nat) : list byte :=
  map (fun i => ref_data f (off + Z.of_nat i)) (seq 0 n).

(** The offset [rvth_write_BankEntry] seeks to. *)
Definition seek_offset (bank : Z) : Z :=
  LBA_TO_BYTES (uint32 (NHCD_BANKTABLE_ADDRESS_LBA + bank + 1)).

Section Outcome.

Context {E : RvtH_Errors} {T : RvtH_Time}.

(** The error with which [rvth_write_BankEntry] refuses an entry, if it
    does. *)
Definition rejection (e : RvtH_BankEntry) : option Z :=
  if is_deleted e then None
  else match type e with
       | RVTH_BankType_Unknown => Some RVTH_ERROR_BANK_UNKNOWN
       | RVTH_BankType_Wii_DL_Bank2 => Some RVTH_ERROR_BANK_DL_2
       | _ => None
       end.

Definition filled_entry (magic : Z) (e : RvtH_BankEntry) (now : Z)
  : NHCD_BankEntry :=
  mkNHCD magic (repeat x30 14) (rvth_timestamp_create now)
         (lba_start e) (lba_len e) (repeat x00 472).

(** The record [rvth_write_BankEntry] hands to the store for an entry it
    does not refuse. *)
Definition record_of (e : RvtH_BankEntry) (now : Z) : NHCD_BankEntry :=
  if is_deleted e then NHCD_BankEntry_zero
  else match type e with
       | RVTH_BankType_GCN => filled_entry NHCD_BankType_GCN e now
       | RVTH_BankType_Wii_SL => filled_entry NHCD_BankType_Wii_SL e now
       | RVTH_BankType_Wii_DL => filled_entry NHCD_BankType_Wii_DL e now
       | _ => NHCD_BankEntry_zero
       end.

End Outcome.

(* ================================================================== *)
(** * reader_plain.h *)

Module Reader.

Inductive error : Set := OutOfRange | StoreError.

(** Modelled from the spec: the plain reader (reader_plain.c, reader.h) is
    missing from the sources; only the declaration of [reader_plain_open]
    and its note "If lba_start == 0 and lba_len == 0, the entire file will
    be used" are present.  A Reader is a view of a backing store through
    the window [lba_start], [lba_len]; the all-zero pair is the sentinel
    for the entire store, any other pair bounds the window. *)
Record Reader : Type := mkReader {
  file : RefFile;
  lba_start : Z;            (* uint32_t *)
  lba_len : Z               (* uint32_t *)
}.

Definition reader_plain_open (file : RefFile) (lba_start lba_len : Z)
  : Reader :=
  mkReader file lba_start lba_len.

Definition unbounded (r : Reader) : bool :=
  (lba_start r =? 0) && (lba_len r =? 0).

(** Modelled from the spec: "size() returns the window length, or the full
    store length if unbounded". *)
Definition size (r : Reader) : Z :=
  if unbounded r then ref_size (file r) else lba_len r * 512.

(** Modelled from the spec: a positioned read of the backing store fails
    outside its addressable range. *)
Definition store_read_at (f : RefFile) (offset : Z) (length : Z)
  : error + list byte :=
  if (0 <=? offset) && (0 <=? length) && (offset + length <=? ref_size f)
  then inr (bytes_at f offset (Z.to_nat length))
  else inl StoreError.

(** Modelled from the spec: "offset + length <= window_length when the
    window is bounded; translates to absolute store offset
    window_start*512 + offset, performs a positioned read.  Reading past
    the window end is an out-of-range error". *)
Definition read_at (r : Reader) (offset : Z) (length : Z)
  : error + list byte :=
  if negb (unbounded r) && negb (offset + length <=? lba_len r * 512)
  then inl OutOfRange
  else store_read_at (file r) (lba_start r * 512 + offset) length.

End Reader.

(* ================================================================== *)
(** * Sample stores and handles *)

Module Sample.

Definition errors : RvtH_Errors :=
  {| RVTH_ERROR_BANK_UNKNOWN := 4;
     RVTH_ERROR_BANK_DL_2 := 6;
     RVTH_ERROR_NOT_A_DEVICE := 7;
     RVTH_ERROR_NOT_HDD_IMAGE := 10 |}.

(** "20180112222720" *)
Definition clock : RvtH_Time :=
  {| rvth_timestamp_create := fun _ =>
       [x32; x30; x31; x38; x30; x31; x31; x32;
        x32; x32; x32; x37; x32; x30] |}.

(** A store filled with 0xFF. *)
Definition store (writable device : bool) : RefFile :=
  mkRefFile (fun _ => xff) 0x7470C06000 0 writable device.

Definition platform_ok : Platform := mkPlatform 0 None 512 None.

Definition world (f : RefFile) (p : Platform) : World :=
  mkWorld f 0 1515796040 p [].

Definition gcn_bank : RvtH_BankEntry :=
  mkBankEntry 0x300009 0x2B8280 1515796040 RVTH_BankType_GCN false.

Definition empty_bank : RvtH_BankEntry :=
  mkBankEntry 0 0 0 RVTH_BankType_Empty false.

Definition unknown_bank (deleted : bool) : RvtH_BankEntry :=
  mkBankEntry 0x8C4A09 0x8C4A00 1515796040 RVTH_BankType_Unknown deleted.

Definition dl2_bank (deleted : bool) : RvtH_BankEntry :=
  mkBankEntry 0x118940A 0x8C4A00 1515796040 RVTH_BankType_Wii_DL_Bank2
              deleted.

(** The seek fails and leaves errno alone. *)
Definition platform_seek_fails_silently : Platform :=
  mkPlatform 0 (Some None) 512 None.

(** The world a computation ends in. *)
Definition final {A} (m : M A) (w : World) : World :=
  match m w with
  | Some (_, w') => w'
  | None => w
  end.

(** A read-only HDD image file, a writable device, and a read-only device
    whose seeks fail. *)
Definition image_file : World := world (store false false) platform_ok.
Definition open_device : World := world (store true true) platform_ok.
Definition locked_device : World := world (store false true) platform_ok.
Definition bad_device : World :=
  world (store false true) platform_seek_fails_silently.

(** An 8-bank HDD. *)
Definition hdd : RvtH :=
  mkRvtH RVTH_BANK_COUNT RVTH_ImageType_HDD_Reader
    [ gcn_bank; unknown_bank true; dl2_bank true; unknown_bank false;
      dl2_bank false; empty_bank; empty_bank; empty_bank ].

(** A standalone disc image. *)
Definition gcm : RvtH :=
  mkRvtH 1 RVTH_ImageType_GCM [ gcn_bank ].

End Sample.

(* ================================================================== *)
(** * More of rvth.h, and the scan on a big-endian host *)

(** rvth.h: bank 1 starting address and maximum bank size. *)
Definition RVTH_BANK_1_START : Z := 0x60001200.
Definition RVTH_BANK_SIZE : Z := 0x118940000.

(** Reading a stored [uint32_t] back with [be32_to_cpu]: the value of
    four bytes, most significant first. *)
Definition be32_to_cpu (l : list byte) : Z :=
  fold_left (fun acc b => acc * 256 + byte_to_Z b) l 0.

(** The handle's [entries] array has [bank_count] elements. *)
Definition entries_allocated (rvth : RvtH) : Prop :=
  Z.of_nat (length (entries rvth)) = bank_count rvth.

Module BlockScanBE.

(** The same scan where the host stores the most significant byte of a
    [uint64_t] first. *)
Fixpoint be_bytes_to_Z (l : list byte) : Z :=
  match l with
  | [] => 0
  | b :: t => Z.lor (Z.shiftl (byte_to_Z b) (8 * Z.of_nat (length t)))
                    (be_bytes_to_Z t)
  end.

Definition load64 (block64 : list byte) (k : nat) : option Z :=
  let w := firstn 8 (skipn (8 * k) block64) in
  if Nat.eqb (length w) 8 then Some (be_bytes_to_Z w) else None.

Fixpoint scan_groups (i : nat) (block64 : list byte) : option bool :=
  match i with
  | O => Some true
  | S i' =>
    BlockScan.obind (load64 block64 0) (fun x =>
    BlockScan.obind (load64 block64 1) (fun x1 => let x := Z.lor x x1 in
    BlockScan.obind (load64 block64 2) (fun x2 => let x := Z.lor x x2 in
    BlockScan.obind (load64 block64 3) (fun x3 => let x := Z.lor x x3 in
    BlockScan.obind (load64 block64 4) (fun x4 => let x := Z.lor x x4 in
    BlockScan.obind (load64 block64 5) (fun x5 => let x := Z.lor x x5 in
    BlockScan.obind (load64 block64 6) (fun x6 => let x := Z.lor x x6 in
    BlockScan.obind (load64 block64 7) (fun x7 => let x := Z.lor x x7 in
    if negb (x =? 0) then Some false
    else scan_groups i' (skipn 64 block64)))))))))
  end.

Definition rvth_is_block_empty (block : list byte) (size : Z) : option bool :=
  if size mod 64 =? 0
  then scan_groups (Z.to_nat (size / 8 / 8)) block
  else None.

End BlockScanBE.

(* ================================================================== *)
(** * query_win32.c *)

Module Query.

Import Stdlib.Strings.Ascii Stdlib.Strings.String.
#[local] Open Scope string_scope.
#[local] Open Scope Z_scope.

(** query.h: the RVT-H Reader's USB IDs. *)
Definition RVTH_READER_VID : Z := 0x057e.
Definition RVTH_READER_PID : Z := 0x0304.

(** <errno.h> and the Windows headers. *)
Definition EACCES : Z := 13.
Definition CR_SUCCESS : Z := 0.
Definition INVALID_HANDLE_VALUE : Z := -1.
Definition ERROR_ACCESS_DENIED : Z := 5.
Definition FILE_DEVICE_DISK : Z := 7.
Definition REG_SZ : Z := 1.
Definition MAX_PATH : nat := 260.
Definition sizeof_STORAGE_DEVICE_NUMBER : Z := 12.
Definition sizeof_GET_LENGTH_INFORMATION : Z := 8.

(** A field of a [malloc]ed structure: not written yet, or holding a
    value.  A [TCHAR*] value is NULL ([None]) or a string. *)
Inductive field (A : Type) : Type :=
| Undef
| Val (a : A).
Arguments Undef {A}.
Arguments Val {A} a.

(** [RvtH_QueryEntry] (query.h); [next] is NULL or the address of a
    node. *)
Record RvtH_QueryEntry : Set := mkEntry {
  next : field (option nat);
  device_name : field (option string);
  usb_vendor : field (option string);
  usb_product : field (option string);
  usb_serial : field (option string);
  hdd_vendor : field (option string);
  hdd_model : field (option string);
  hdd_fwver : field (option string);
  size : field Z
}.

Definition fresh_entry : RvtH_QueryEntry :=
  mkEntry Undef Undef Undef Undef Undef Undef Undef Undef Undef.

(** What the system answers for one device of the enumeration: the codes
    and strings of the three cfgmgr32 calls, the handle of [CreateFile]
    and the [GetLastError] that follows a failure, the results of the
    three [DeviceIoControl] calls, the registry type and text left by
    [CM_Get_DevNode_Registry_Property], whether [malloc] succeeds, and
    whether each of the string duplications succeeds, numbered in the
    order of the fields: device name 0, USB vendor 1, product 2, serial 3,
    HDD vendor 4, model 5, firmware version 6. *)
Record STORAGE_DEVICE_DESCRIPTOR : Set := mkDescriptor {
  VendorIdOffset : Z;
  ProductIdOffset : Z;
  ProductRevisionOffset : Z;
  text_at : Z -> string
}.

Record DevInfo : Set := mkDevInfo {
  cm_get_parent : Z;
  cm_usb_instance_id : Z * string;
  cm_disk_instance_id : Z * string;
  create_file : Z;
  last_error : Z;
  ioctl_device_number : bool * Z * Z * Z;
  reg_mfg : Z * string;
  ioctl_query_property : bool * STORAGE_DEVICE_DESCRIPTOR;
  ioctl_length_info : bool * Z * Z;
  malloc_ok : bool;
  tcsdup_ok : nat -> bool
}.

Inductive api_event : Set :=
| EvCreateFile (path : string)
| EvCloseHandle (h : Z)
| EvDestroyDeviceInfoList.

(** The heap of list nodes ([None]: freed), the two list pointers, what
    has been stored through [pErr], the handles that are open, and the
    calls made, most recent first. *)
Record State : Set := mkState {
  heap : list (option RvtH_QueryEntry);
  list_head : option nat;
  list_tail : option nat;
  pErr_value : option Z;
  open_handles : list Z;
  api_log : list api_event
}.

Definition initial : State := mkState [] None None None [] [].

Definition set_heap (h : list (option RvtH_QueryEntry)) (st : State) : State :=
  mkState h (list_head st) (list_tail st) (pErr_value st) (open_handles st)
          (api_log st).

Definition set_list (hd tl : option nat) (st : State) : State :=
  mkState (heap st) hd tl (pErr_value st) (open_handles st) (api_log st).

(** [if (pErr) *pErr = e;] *)
Definition store_pErr (pErr : bool) (e : Z) (st : State) : State :=
  if pErr
  then mkState (heap st) (list_head st) (list_tail st) (Some e)
               (open_handles st) (api_log st)
  else st.

Definition CreateFile (path : string) (h : Z) (st : State) : State :=
  mkState (heap st) (list_head st) (list_tail st) (pErr_value st)
          (if (h =? 0) || (h =? INVALID_HANDLE_VALUE) then open_handles st
           else h :: open_handles st)
          (EvCreateFile path :: api_log st).

Fixpoint remove_handle (h : Z) (l : list Z) : list Z :=
  match l with
  | [] => []
  | x :: t => if x =? h then t else x :: remove_handle h t
  end.

Definition CloseHandle (h : Z) (st : State) : State :=
  mkState (heap st) (list_head st) (list_tail st) (pErr_value st)
          (remove_handle h (open_handles st))
          (EvCloseHandle h :: api_log st).

Definition SetupDiDestroyDeviceInfoList (st : State) : State :=
  mkState (heap st) (list_head st) (list_tail st) (pErr_value st)
          (open_handles st) (EvDestroyDeviceInfoList :: api_log st).

(** [malloc(sizeof(RvtH_QueryEntry))]: NULL, or the address of a new node
    whose fields hold nothing yet. *)
Definition malloc (ok : bool) (st : State) : option nat * State :=
  if ok
  then (Some (List.length (heap st)),
        set_heap (heap st ++ [Some fresh_entry])%list st)
  else (None, st).

Fixpoint update_nth {A} (n : nat) (f : A -> A) (l : list A) : list A :=
  match l, n with
  | [], _ => []
  | x :: t, O => f x :: t
  | x :: t, S n' => x :: update_nth n' f t
  end.

(** A write through a node pointer; [None] when the pointer is NULL or
    does not point to a live node. *)
Definition write_node (p : option nat) (f : RvtH_QueryEntry -> RvtH_QueryEntry)
    (st : State) : option State :=
  match p with
  | None => None
  | Some a =>
    match nth_error (heap st) a with
    | Some (Some _) =>
      Some (set_heap (update_nth a (option_map f) (heap st)) st)
    | _ => None
    end
  end.

(** Modelled from the spec: [rvth_query_free] (query.c) is missing from
    the sources; query.h declares it as "Free a list of queried devices".
    It frees the nodes from [p] along [next]. *)
Fixpoint free_list (fuel : nat) (p : option nat)
    (h : list (option RvtH_QueryEntry)) : list (option RvtH_QueryEntry) :=
  match fuel, p with
  | S fuel', Some a =>
    match nth_error h a with
    | Some (Some n) =>
      free_list fuel' (match next n with Val q => q | Undef => None end)
                (update_nth a (fun _ => None) h)
    | _ => h
    end
  | _, _ => h
  end.

Definition rvth_query_free (p : option nat) (st : State) : State :=
  set_heap (free_list (List.length (heap st)) p (heap st)) st.

(** The entries of the list that starts at [p], as a caller walks it. *)
Fixpoint entries_from (fuel : nat) (p : option nat)
    (h : list (option RvtH_QueryEntry)) : list RvtH_QueryEntry :=
  match fuel, p with
  | S fuel', Some a =>
    match nth_error h a with
    | Some (Some n) =>
      n :: entries_from fuel' (match next n with Val q => q | Undef => None end) h
    | _ => []
    end
  | _, _ => []
  end.

(** The C library. *)
Fixpoint map_chars (f : ascii -> ascii) (s : string) : string :=
  match s with
  | EmptyString => EmptyString
  | String c t => String (f c) (map_chars f t)
  end.

(** [_sntprintf(buf, count, ...)] writes at most [count] characters. *)
Definition sntprintf (count : nat) (s : string) : string :=
  if Nat.ltb (String.length s) count then s else substring 0 count s.

(** The conversions [%u] and [%08u] of a 32-bit unsigned value. *)
Fixpoint dec_digits (fuel : nat) (n : Z) (acc : string) : string :=
  match fuel with
  | O => acc
  | S fuel' =>
    let acc' := String (ascii_of_N (Z.to_N (48 + n mod 10))) acc in
    if n / 10 =? 0 then acc' else dec_digits fuel' (n / 10) acc'
  end.

Definition format_u (n : Z) : string := dec_digits 10 n "".

Fixpoint zeroes (n : nat) : string :=
  match n with
  | O => ""
  | S n' => String "0" (zeroes n')
  end.

Definition format_08u (n : Z) : string :=
  let s := format_u n in zeroes (8 - String.length s) ++ s.

(** [_totupper] and [_stscanf] with the format
    [USB\VID_%04hX&PID_%04hX\%08u], which returns the number of fields
    converted and the three values. *)
Class CRT : Set := {
  totupper : ascii -> ascii;
  stscanf_usb_id : string -> Z * Z * Z * Z
}.

(** [_tcsdup] and [_tcsndup]: a copy of the string, or NULL when the
    allocation fails. *)
Definition tcsdup (ok : bool) (s : string) : option string :=
  if ok then Some s else None.

Definition tcsndup (ok : bool) (s : string) (len : nat) : option string :=
  if ok then Some (substring 0 len s) else None.

(** [A2T_dup], ANSI build. *)
Definition A2T_dup (ok : bool) (str : string) (len : Z) : option string :=
  if 0 <=? len then tcsndup ok str (Z.to_nat len) else tcsdup ok str.

Inductive loop_exit : Set :=
| Continue (st : State)
| Break (st : State).

Section QueryDevices.

Context {C : CRT}.
Variable pErr : bool.

(** The part of the loop body after a list entry has been created: the
    fields are written through [list_tail]. *)
Definition fill_entry (d : DevInfo) (hw_serial : Z) (hDevice : Z)
    (bRet : bool) (DeviceNumber : Z) (st : State) : option loop_exit :=
  (* Device name. *)
  let s_devicePath :=
    sntprintf MAX_PATH ("\\.\PhysicalDrive" ++ format_u DeviceNumber) in
  (* Get USB information. *)
  let '(ulRegDataType, tcs) := reg_mfg d in
  let vendor :=
    if bRet && (ulRegDataType =? REG_SZ)
    then if String.eqb tcs "Compatible USB storage device"
         then tcsdup (tcsdup_ok d 1) "Nintendo Co., Ltd."
         else tcsdup (tcsdup_ok d 1) tcs
    else None in
  (* RVT-H Reader serial number. *)
  let serial := sntprintf 4096 (format_08u hw_serial) in
  (* Get more drive information. *)
  let '(bRet, psdp) := ioctl_query_property d in
  let at_offset (i : nat) (off : Z) : option string :=
    if negb (off =? 0) then A2T_dup (tcsdup_ok d i) (text_at psdp off) (-1)
    else None in
  (* Get the disk capacity. *)
  let '(bRet2, cbBytesReturned, Length) := ioctl_length_info d in
  let sz :=
    if bRet2 && (cbBytesReturned =? sizeof_GET_LENGTH_INFORMATION)
    then Length else 0 in
  match
    write_node (list_tail st)
      (fun n =>
         mkEntry (next n)
                 (Val (tcsdup (tcsdup_ok d 0) s_devicePath))
                 (Val vendor)
                 (Val (tcsdup (tcsdup_ok d 2) "RVT-H READER"))
                 (Val (tcsdup (tcsdup_ok d 3) serial))
                 (if bRet then Val (at_offset 4%nat (VendorIdOffset psdp))
                  else hdd_vendor n)
                 (if bRet then Val (at_offset 5%nat (ProductIdOffset psdp))
                  else hdd_model n)
                 (if bRet then Val (at_offset 6%nat (ProductRevisionOffset psdp))
                  else hdd_fwver n)
                 (Val sz))
      st
  with
  | Some st => Some (Continue (CloseHandle hDevice st))
  | None => None
  end.

(** Create a list entry. *)
Definition create_entry (d : DevInfo) (hw_serial : Z) (hDevice : Z)
    (bRet : bool) (DeviceNumber : Z) (st : State) : option loop_exit :=
  match list_head st with
  | None =>
    (* New list head. *)
    let '(p, st) := malloc (malloc_ok d) st in
    let st := set_list p (list_tail st) st in
    match p with
    | None =>
      (* malloc() failed. *)
      Some (Break (CloseHandle hDevice st))
    | Some _ =>
      let st := set_list (list_head st) (list_head st) st in
      match write_node (list_tail st)
              (fun n => mkEntry (Val None) (device_name n) (usb_vendor n)
                          (usb_product n) (usb_serial n) (hdd_vendor n)
                          (hdd_model n) (hdd_fwver n) (size n)) st with
      | Some st => fill_entry d hw_serial hDevice bRet DeviceNumber st
      | None => None
      end
    end
  | Some _ =>
    (* Add an entry to the current list. *)
    let '(p, st) := malloc (malloc_ok d) st in
    match write_node (list_tail st)
            (fun n => mkEntry (Val p) (device_name n) (usb_vendor n)
                        (usb_product n) (usb_serial n) (hdd_vendor n)
                        (hdd_model n) (hdd_fwver n) (size n)) st with
    | None => None
    | Some st =>
      match p with
      | None =>
        (* malloc() failed. *)
        let st := CloseHandle hDevice st in
        let st := rvth_query_free (list_head st) st in
        Some (Break (set_list None None st))
      | Some _ =>
        match write_node (list_tail st)
                (fun n => mkEntry (Val None) (device_name n) (usb_vendor n)
                            (usb_product n) (usb_serial n) (hdd_vendor n)
                            (hdd_model n) (hdd_fwver n) (size n)) st with
        | Some st => fill_entry d hw_serial hDevice bRet DeviceNumber st
        | None => None
        end
      end
    end
  end.

(** One turn of the [while] loop for the device [d]. *)
Definition loop_body (d : DevInfo) (st : State) : option loop_exit :=
  (* Get the parent instance ID. *)
  if negb (cm_get_parent d =? CR_SUCCESS) then Some (Continue st) else
  let '(ret, s_usbInstanceID) := cm_usb_instance_id d in
  if negb (ret =? CR_SUCCESS) then Some (Continue st) else
  (* Needs to be converted to uppercase. *)
  let s_usbInstanceID := map_chars totupper s_usbInstanceID in
  (* Try sscanf(). *)
  let '(ret, vid, pid, hw_serial) := stscanf_usb_id s_usbInstanceID in
  if negb (ret =? 3) then Some (Continue st) else
  (* Does the USB device ID match? *)
  if negb (vid =? RVTH_READER_VID) || negb (pid =? RVTH_READER_PID)
  then Some (Continue st) else
  (* Is the serial number valid? *)
  if (hw_serial <? 10000000) || (29999999 <? hw_serial)
  then Some (Continue st) else
  (* Get this device's instance path. *)
  let '(ret, s_diskInstanceID) := cm_disk_instance_id d in
  if negb (ret =? CR_SUCCESS) then Some (Continue st) else
  (* Replace backslashes in instance ID with #. *)
  let s_diskInstanceID :=
    map_chars (fun c => if Ascii.eqb c "\" then "#"%char else c)
              s_diskInstanceID in
  let s_devicePath :=
    sntprintf MAX_PATH
      ("\\?\" ++ s_diskInstanceID
         ++ "#{53f56307-b6bf-11d0-94f2-00a0c91efb8b}") in
  (* Open the drive to retrieve information. *)
  let hDevice := create_file d in
  let st := CreateFile s_devicePath hDevice st in
  if (hDevice =? 0) || (hDevice =? INVALID_HANDLE_VALUE) then
    (* Can't open this device for some reason... *)
    let dwErr := last_error d in
    if dwErr =? ERROR_ACCESS_DENIED then
      (* Access denied.  Stop enumerating devices and return an error. *)
      let st := store_pErr pErr EACCES st in
      match list_head st with
      | Some _ =>
        let st := rvth_query_free (list_head st) st in
        Some (Break (set_list None None st))
      | None => Some (Break st)
      end
    else
      (* Other error. Continue enumerating. *)
      Some (Continue st)
  else
  let '(bRet, cbBytesReturned, DeviceType, DeviceNumber) :=
    ioctl_device_number d in
  if negb bRet || negb (cbBytesReturned =? sizeof_STORAGE_DEVICE_NUMBER)
     || negb (DeviceType =? FILE_DEVICE_DISK)
  then
    (* Unable to get the device information, or this isn't a disk
       device. *)
    Some (Continue (CloseHandle hDevice st))
  else
    create_entry d hw_serial hDevice bRet DeviceNumber st.

(** [while (SetupDiEnumDeviceInfo(hDevInfoSet, devIndex, &devInfoData))]
    over the devices of the set, in order. *)
Fixpoint enumerate (devs : list DevInfo) (st : State) : option State :=
  match devs with
  | [] => Some st
  | d :: devs' =>
    match loop_body d st with
    | Some (Continue st') => enumerate devs' st'
    | Some (Break st') => Some st'
    | None => None
    end
  end.

(** [RvtH_QueryEntry *rvth_query_devices(int *pErr)]; [devInfoSet] is the
    answer of [SetupDiGetClassDevs], [None] when it fails.  The result is
    the final state, whose [list_head] is the pointer returned; [None] is
    a write through an invalid pointer. *)
Definition rvth_query_devices (devInfoSet : option (list DevInfo))
  : option State :=
  match devInfoSet with
  | None =>
    (* SetupDiGetClassDevs() failed. *)
    Some (store_pErr pErr EIO initial)
  | Some devs =>
    match enumerate devs initial with
    | Some st => Some (SetupDiDestroyDeviceInfoList st)
    | None => None
    end
  end.

End QueryDevices.

(** The list a caller gets. *)
Definition returned_list (st : State) : list RvtH_QueryEntry :=
  entries_from (List.length (heap st)) (list_head st) (heap st).

(** ** What holds between two turns of the loop, and after a [break] *)

(** A node as the loop leaves it after the turn for the device [d]. *)
Definition filled (d : DevInfo) (n : RvtH_QueryEntry) : Prop :=
  next n = Val None /\
  usb_product n = Val (tcsdup (tcsdup_ok d 2) "RVT-H READER") /\
  (exists serial, 10000000 <= serial <= 29999999 /\
     usb_serial n
       = Val (tcsdup (tcsdup_ok d 3) (sntprintf 4096 (format_08u serial)))) /\
  (exists number,
     device_name n
       = Val (tcsdup (tcsdup_ok d 0)
                (sntprintf MAX_PATH
                   ("\\.\PhysicalDrive" ++ format_u number)))) /\
  (exists vendor, usb_vendor n = Val vendor) /\
  (exists sz, size n = Val sz).

(** [D] holds of the devices seen so far. *)
Definition loop_inv (D : DevInfo -> Prop) (st : State) : Prop :=
  open_handles st = [] /\
  list_tail st = list_head st /\
  pErr_value st = None /\
  ~ In EvDestroyDeviceInfoList (api_log st) /\
  match list_head st with
  | None => True
  | Some a =>
    exists n d, nth_error (heap st) a = Some (Some n) /\ D d /\ filled d n
  end.

Definition break_inv (pErr : bool) (st : State) : Prop :=
  open_handles st = [] /\
  list_head st = None /\
  ~ In EvDestroyDeviceInfoList (api_log st) /\
  (pErr_value st = None \/ (pErr = true /\ pErr_value st = Some EACCES)).

(** The device is a reader with a valid serial number whose [CreateFile]
    fails with ERROR_ACCESS_DENIED. *)
Definition access_denied {C : CRT} (d : DevInfo) : bool :=
  if negb (cm_get_parent d =? CR_SUCCESS) then false else
  let '(ret, s_usbInstanceID) := cm_usb_instance_id d in
  if negb (ret =? CR_SUCCESS) then false else
  let '(ret, vid, pid, hw_serial) :=
    stscanf_usb_id (map_chars totupper s_usbInstanceID) in
  if negb (ret =? 3) then false else
  if negb (vid =? RVTH_READER_VID) || negb (pid =? RVTH_READER_PID)
  then false else
  if (hw_serial <? 10000000) || (29999999 <? hw_serial) then false else
  let '(ret, _) := cm_disk_instance_id d in
  if negb (ret =? CR_SUCCESS) then false else
  if (create_file d =? 0) || (create_file d =? INVALID_HANDLE_VALUE)
  then last_error d =? ERROR_ACCESS_DENIED
  else false.

(** ** Sample devices *)

Module Sample.

(** A C library that leaves the characters as they are and reads the IDs
    of two readers. *)
Definition crt : CRT :=
  {| totupper := fun c => c;
     stscanf_usb_id := fun s =>
       if String.eqb s "USB\VID_057E&PID_0304\10012345"
       then (3, 0x057e, 0x0304, 10012345)
       else if String.eqb s "USB\VID_057E&PID_0304\20054321"
       then (3, 0x057e, 0x0304, 20054321)
       else (0, 0, 0, 0) |}.

(** A reader with the USB instance ID [id], opened as handle [h], disk
    number [number]. *)
Definition reader (id : string) (h number : Z) : DevInfo :=
  mkDevInfo 0 (0, id) (0, "USBSTOR\DISK&VEN_&PROD_RVT-H\1&0") h 0
            (true, 12, 7, number) (1, "Compatible USB storage device")
            (false, mkDescriptor 0 0 0 (fun _ => ""))
            (true, 8, 500107862016) true (fun _ => true).

(** A reader that cannot be opened: access denied. *)
Definition locked_reader (id : string) : DevInfo :=
  mkDevInfo 0 (0, id) (0, "USBSTOR\DISK&VEN_&PROD_RVT-H\2&0")
            INVALID_HANDLE_VALUE ERROR_ACCESS_DENIED
            (false, 0, 0, 0) (0, "")
            (false, mkDescriptor 0 0 0 (fun _ => ""))
            (false, 0, 0) true (fun _ => true).

Definition two_readers : list DevInfo :=
  [ reader "USB\VID_057E&PID_0304\10012345" 100 1;
    reader "USB\VID_057E&PID_0304\20054321" 104 2 ].


End Sample.

End Query.

(* ================================================================== *)
(** * TranslationManager.cpp *)

Module Translation.

Import Stdlib.Strings.String.StringSyntax.
#[local] Open Scope string_scope.

Definition QString : Set := String.string.

(** A loaded [QTranslator], seen through
    [translate(context, sourceText, disambiguation)]. *)
Definition QTranslator : Set := QString -> QString -> QString -> QString.

(** Qt as the function uses it: [QDir(path).entryInfoList(nameFilters,
    filters)], giving the absolute paths of the files found, in the order
    of the listing, and [QTranslator::load(file)], which fails or gives
    the translator of the file. *)
Class Qt : Set := {
  entryInfoList : QString -> list QString -> Z -> list QString;
  load : QString -> option QTranslator
}.

(** [QMap<QString, QString>], as the pairs inserted; [insert] replaces
    the value of a key that is present. *)
Definition QMap : Set := list (QString * QString).

Fixpoint value (key : QString) (m : QMap) : option QString :=
  match m with
  | [] => None
  | (k, v) :: t => if String.eqb k key then Some v else value key t
  end.

Definition contains (key : QString) (m : QMap) : bool :=
  match value key m with
  | Some _ => true
  | None => false
  end.

Fixpoint insert (key v : QString) (m : QMap) : QMap :=
  match m with
  | [] => [(key, v)]
  | (k, v') :: t =>
    if String.eqb k key then (k, v) :: t else (k, v') :: insert key v t
  end.

Definition nameFilters : list QString := ["*.qm"; "*.qM"; "*.Qm"; "*.QM"].

(** [QDir::Files | QDir::Readable] *)
Definition filters : Z := Z.lor 0x002 0x010.

Section Enumerate.

Context {Q : Qt}.

(** The inner [foreach] over the files of one directory. *)
Fixpoint enumerate_files (files : list QString) (tsMap : QMap) : QMap :=
  match files with
  | [] => tsMap
  | file :: files' =>
    (* Get the locale information. *)
    match load file with
    | Some tmpTs =>
      let locale := tmpTs "TranslationManager" "C" "ts-locale" in
      if contains locale tsMap then
        (* FIXME: Duplicate translation? *)
        enumerate_files files' tsMap
      else
        (* Add the translation to the map. *)
        let language := tmpTs "TranslationManager" "Default" "ts-language" in
        enumerate_files files' (insert locale language tsMap)
    | None => enumerate_files files' tsMap
    end
  end.

(** The outer [foreach] over [d->pathList]. *)
Fixpoint enumerate_paths (pathList : list QString) (tsMap : QMap) : QMap :=
  match pathList with
  | [] => tsMap
  | path :: pathList' =>
    let files := entryInfoList path nameFilters filters in
    enumerate_paths pathList' (enumerate_files files tsMap)
  end.

(** [QMap<QString, QString> TranslationManager::enumerate(void) const],
    on the [pathList] of the private object. *)
Definition enumerate (pathList : list QString) : QMap :=
  enumerate_paths pathList [].

(** The locale and the language a file declares, when it loads. *)
Definition declared (file : QString) : option (QString * QString) :=
  match load file with
  | Some ts => Some (ts "TranslationManager" "C" "ts-locale",
                     ts "TranslationManager" "Default" "ts-language")
  | None => None
  end.

(** The files of the search path, in the order they are visited. *)
Definition visited (pathList : list QString) : list QString :=
  flat_map (fun path => entryInfoList path nameFilters filters) pathList.

(** The language of the first of [files] that loads and declares
    [locale]. *)
Fixpoint first_declaring (locale : QString) (files : list QString)
  : option QString :=
  match files with
  | [] => None
  | file :: files' =>
    match declared file with
    | Some (l, language) =>
      if String.eqb l locale then Some language
      else first_declaring locale files'
    | None => first_declaring locale files'
    end
  end.

End Enumerate.

(** A sample: two directories, the second with a broken file and a
    second file for the locale of the first directory. *)
Module Sample.

Definition ts (locale language : QString) : QTranslator :=
  fun _ source _ =>
    if String.eqb source "C" then locale
    else if String.eqb source "Default" then language
    else "".

Definition qt : Qt :=
  {| entryInfoList := fun path _ _ =>
       if String.eqb path "/home/user/rvthtool/translations"
       then ["/home/user/rvthtool/translations/rvthtool_de.qm"]
       else if String.eqb path "/usr/share/rvthtool/translations"
       then ["/usr/share/rvthtool/translations/rvthtool_bad.qm";
             "/usr/share/rvthtool/translations/rvthtool_de.qm";
             "/usr/share/rvthtool/translations/rvthtool_es.qm"]
       else [];
     load := fun file =>
       if String.eqb file "/home/user/rvthtool/translations/rvthtool_de.qm"
       then Some (ts "de_DE" "Deutsch (lokal)")
       else if String.eqb file
                 "/usr/share/rvthtool/translations/rvthtool_de.qm"
       then Some (ts "de_DE" "Deutsch")
       else if String.eqb file
                 "/usr/share/rvthtool/translations/rvthtool_es.qm"
       then Some (ts "es_ES" "Espanol")
       else None |}.

Definition pathList : list QString :=
  ["/home/user/rvthtool/translations"; "/usr/share/rvthtool/translations"].

End Sample.

End Translation.

(* ================================================================== *)
(** * Facts about bytes and words *)

Lemma byte_to_Z_nonneg (b : byte) : 0 <= byte_to_Z b.
Proof. unfold byte_to_Z. lia. Qed.

Lemma byte_is_zero_iff (b : byte) : byte_is_zero b = true <-> b = x00.
Proof.
  split.
  - destruct b; vm_compute; intro H; try reflexivity; discriminate H.
  - intros ->. reflexivity.
Qed.

Lemma le_bytes_to_Z_nonneg (l : list byte) : 0 <= le_bytes_to_Z l.
Proof.
  induction l as [|b t IH]; cbn [le_bytes_to_Z]; [lia|].
  apply Z.lor_nonneg. split; [apply byte_to_Z_nonneg|].
  apply Z.shiftl_nonneg. exact IH.
Qed.

Lemma lor_eqb_0 (a b : Z) : (Z.lor a b =? 0) = (a =? 0) && (b =? 0).
Proof.
  destruct (Z.eqb_spec (Z.lor a b) 0) as [H|H].
  - apply Z.lor_eq_0_iff in H. destruct H as [-> ->]. reflexivity.
  - destruct (Z.eqb_spec a 0) as [->|]; [|reflexivity].
    destruct (Z.eqb_spec b 0) as [->|]; [|reflexivity].
    contradiction H. reflexivity.
Qed.

Lemma le_bytes_to_Z_eqb_0 (l : list byte) :
  (le_bytes_to_Z l =? 0) = forallb byte_is_zero l.
Proof.
  induction l as [|b t IH]; cbn [le_bytes_to_Z forallb]; [reflexivity|].
  rewrite lor_eqb_0. unfold byte_is_zero at 1. f_equal.
  rewrite <- IH.
  destruct (Z.eqb_spec (le_bytes_to_Z t) 0) as [->|H]; [reflexivity|].
  apply Z.eqb_neq. rewrite Z.shiftl_eq_0_iff by lia. exact H.
Qed.

Lemma load64_group (c rest : list byte) (k : nat) :
  length c = 64%nat -> (k < 8)%nat ->
  load64 (c ++ rest) k = Some (le_bytes_to_Z (firstn 8 (skipn (8 * k) c))).
Proof.
  intros Hc Hk. unfold load64.
  rewrite skipn_app, firstn_app.
  rewrite length_skipn, Hc.
  replace (8 - (64 - 8 * k))%nat with 0%nat by lia.
  rewrite firstn_O, app_nil_r.
  rewrite length_firstn, length_skipn, Hc.
  replace (Nat.min 8 (64 - 8 * k)) with 8%nat by lia.
  reflexivity.
Qed.

Lemma group_split (c : list byte) :
  length c = 64%nat ->
  c = firstn 8 (skipn (8 * 0) c) ++ firstn 8 (skipn (8 * 1) c)
   ++ firstn 8 (skipn (8 * 2) c) ++ firstn 8 (skipn (8 * 3) c)
   ++ firstn 8 (skipn (8 * 4) c) ++ firstn 8 (skipn (8 * 5) c)
   ++ firstn 8 (skipn (8 * 6) c) ++ firstn 8 (skipn (8 * 7) c).
Proof.
  intro Hc.
  do 64 (destruct c as [|? c]; [discriminate Hc|]).
  destruct c; [reflexivity | discriminate Hc].
Qed.

Lemma scan_groups_spec (i : nat) (block : list byte) :
  length block = (64 * i)%nat ->
  BlockScan.scan_groups i block = Some (forallb byte_is_zero block).
Proof.
  revert block. induction i as [|i IH]; intros block Hlen.
  - destruct block; [reflexivity | discriminate Hlen].
  - rewrite <- (firstn_skipn 64 block).
    set (c := firstn 64 block). set (rest := skipn 64 block).
    assert (Hc : length c = 64%nat) by (subst c; rewrite length_firstn; lia).
    assert (Hr : length rest = (64 * i)%nat)
      by (subst rest; rewrite length_skipn; lia).
    cbn [BlockScan.scan_groups].
    rewrite !load64_group by (assumption || lia).
    cbn [BlockScan.obind].
    rewrite skipn_app, Hc, Nat.sub_diag.
    rewrite (skipn_all2 (n:=64) c) by lia.
    change (skipn 0 rest) with rest. rewrite app_nil_l.
    rewrite IH by exact Hr.
    rewrite !lor_eqb_0, !le_bytes_to_Z_eqb_0.
    rewrite <- !forallb_app, <- !app_assoc, <- (group_split c Hc).
    rewrite forallb_app.
    destruct (forallb byte_is_zero c); reflexivity.
Qed.

Lemma forallb_byte_is_zero_iff (block : list byte) :
  forallb byte_is_zero block = true <-> Forall (fun b => b = x00) block.
Proof.
  rewrite forallb_forall, Forall_forall.
  split; intros H b Hb; apply byte_is_zero_iff, H, Hb.
Qed.

Lemma flip_bit_at_length (i k : nat) (block : list byte) :
  length (flip_bit_at i k block) = length block.
Proof.
  revert i. induction block as [|b t IH]; intros [|i]; cbn [flip_bit_at length];
    try reflexivity.
  now rewrite IH.
Qed.

Lemma flip_bit_zero_byte (k : nat) :
  (k < 8)%nat -> byte_is_zero (flip_bit k x00) = false.
Proof.
  intro Hk.
  do 8 (destruct k as [|k]; [reflexivity|]). lia.
Qed.

Lemma flip_bit_at_not_all_zero (i k : nat) (block : list byte) :
  (i < length block)%nat -> (k < 8)%nat ->
  Forall (fun b => b = x00) block ->
  forallb byte_is_zero (flip_bit_at i k block) = false.
Proof.
  revert i. induction block as [|b t IH]; intros i Hi Hk Hz; [inversion Hi|].
  inversion Hz as [|? ? Hb Ht]; subst.
  destruct i as [|i]; cbn [flip_bit_at forallb].
  - now rewrite flip_bit_zero_byte.
  - rewrite IH; [apply andb_false_r | cbn [length] in Hi; lia | exact Hk | exact Ht].
Qed.

(* ================================================================== *)
(** * Bulk zero scanner *)

Lemma rvth_is_block_empty_forallb (block : list byte) (size : Z) :
  size = Z.of_nat (length block) -> size mod 64 = 0 ->
  rvth_is_block_empty block size = Some (forallb byte_is_zero block).
Proof.
  intros Hsize Hmod. unfold rvth_is_block_empty.
  rewrite Hmod. cbn [Z.eqb].
  apply scan_groups_spec.
  rewrite Z.div_div by lia. change (8 * 8) with 64.
  assert (H : size = 64 * (size / 64)) by (apply Z.div_exact; lia).
  lia.
Qed.

(** C7: on a buffer whose length is a multiple of 64 (and is the [size]
    passed), [rvth_is_block_empty] returns, and returns true exactly when
    every byte is zero; so it is true on the all-zero buffer and false on
    the all-zero buffer with any single bit flipped. *)
Theorem rvth_is_block_empty_iff_all_zero (block : list byte) (size : Z) :
  size = Z.of_nat (length block) -> size mod 64 = 0 ->
  (exists r, rvth_is_block_empty block size = Some r) /\
  (rvth_is_block_empty block size = Some true <->
     Forall (fun b => b = x00) block) /\
  rvth_is_block_empty (repeat x00 (length block)) size = Some true /\
  (forall i k, (i < length block)%nat -> (k < 8)%nat ->
     rvth_is_block_empty (flip_bit_at i k (repeat x00 (length block))) size
       = Some false).
Proof.
  intros Hsize Hmod.
  assert (Hz : Forall (fun b => b = x00) (repeat x00 (length block))).
  { apply Forall_forall. intros b Hb. now apply repeat_spec in Hb. }
  repeat split.
  - eexists. now apply rvth_is_block_empty_forallb.
  - rewrite rvth_is_block_empty_forallb by assumption.
    intro H. apply forallb_byte_is_zero_iff. now injection H.
  - intro H. rewrite rvth_is_block_empty_forallb by assumption.
    f_equal. now apply forallb_byte_is_zero_iff.
  - rewrite rvth_is_block_empty_forallb; [|now rewrite repeat_length|assumption].
    f_equal. now apply forallb_byte_is_zero_iff.
  - intros i k Hi Hk.
    rewrite rvth_is_block_empty_forallb;
      [|now rewrite flip_bit_at_length, repeat_length|assumption].
    f_equal. apply flip_bit_at_not_all_zero; [now rewrite repeat_length|exact Hk|exact Hz].
Qed.

Lemma rvth_is_block_empty_iff_all_zero_witness :
  rvth_is_block_empty (repeat x00 128) 128 = Some true /\
  rvth_is_block_empty (flip_bit_at 77 3 (repeat x00 128)) 128 = Some false.
Proof.
  destruct (rvth_is_block_empty_iff_all_zero (repeat x00 128) 128
              eq_refl eq_refl) as (_ & _ & Hzero & Hflip).
  split; [exact Hzero | apply Hflip; cbn; lia].
Defined.


(* ================================================================== *)
(** * Facts about the on-disk record *)

Lemma char_array_length (n : nat) (l : list byte) :
  length (char_array n l) = n.
Proof.
  unfold char_array. rewrite length_firstn, length_app, repeat_length. lia.
Qed.

Lemma NHCD_BankEntry_bytes_length (e : NHCD_BankEntry) :
  Z.of_nat (length (NHCD_BankEntry_bytes e)) = sizeof_NHCD_BankEntry.
Proof.
  unfold NHCD_BankEntry_bytes.
  rewrite !length_app, !char_array_length. reflexivity.
Qed.

Lemma NHCD_BankEntry_zero_bytes :
  NHCD_BankEntry_bytes NHCD_BankEntry_zero = repeat x00 512.
Proof. vm_compute. reflexivity. Qed.

(* ================================================================== *)
(** * Facts about the log *)

Lemma new_events_app (w w' : World) (l : list io_event) :
  io_log w' = l ++ io_log w -> new_events w w' = l.
Proof.
  intro H. unfold new_events. rewrite H, length_app.
  replace (length l + length (io_log w) - length (io_log w))%nat
    with (length l + 0)%nat by lia.
  rewrite firstn_app_2. cbn [firstn]. apply app_nil_r.
Qed.

Lemma written_bytes_outside (d : Z -> byte) (pos : Z) (buf : list byte) (o : Z) :
  ~ (pos <= o < pos + Z.of_nat (length buf)) ->
  written_bytes d pos buf o = d o.
Proof.
  intro H. unfold written_bytes.
  destruct (Z.leb_spec pos o); destruct (Z.ltb_spec o (pos + Z.of_nat (length buf)));
    cbn [andb]; try reflexivity.
  lia.
Qed.

Lemma written_bytes_inside (d : Z -> byte) (pos : Z) (buf : list byte) (i : nat) :
  (i < length buf)%nat ->
  written_bytes d pos buf (pos + Z.of_nat i) = nth i buf x00.
Proof.
  intro H. unfold written_bytes.
  destruct (Z.leb_spec pos (pos + Z.of_nat i)); [|lia].
  destruct (Z.ltb_spec (pos + Z.of_nat i) (pos + Z.of_nat (length buf))); [|lia].
  cbn [andb]. f_equal. lia.
Qed.

Lemma bytes_at_written (d : Z -> byte) (f : RefFile) (pos : Z) (buf : list byte) :
  ref_data f = written_bytes d pos buf ->
  bytes_at f pos (length buf) = buf.
Proof.
  intro Hf. unfold bytes_at. rewrite Hf.
  apply nth_ext with (d := x00) (d' := x00).
  - now rewrite length_map, length_seq.
  - intros n Hn. rewrite length_map, length_seq in Hn.
    rewrite (nth_indep _ x00 (written_bytes d pos buf (pos + Z.of_nat 0)))
      by now rewrite length_map, length_seq.
    rewrite (map_nth (fun i => written_bytes d pos buf (pos + Z.of_nat i))).
    rewrite seq_nth by exact Hn. cbn [Nat.add].
    now apply written_bytes_inside.
Qed.

(* ================================================================== *)
(** * The writability gate *)

Section Gate.

Context {E : RvtH_Errors}.

(** What [rvth_make_writable] does, by the state of the store. *)
Lemma rvth_make_writable_run (rvth : RvtH) (w : World) :
  rvth_make_writable rvth w =
  if ref_writable (f_img w) then Some (0, log_event EvIsWritable w)
  else if ref_device (f_img w)
       then ref_make_writable (log_event EvIsDevice (log_event EvIsWritable w))
       else Some (RVTH_ERROR_NOT_A_DEVICE,
                  log_event EvIsDevice (log_event EvIsWritable w)).
Proof.
  unfold rvth_make_writable, bind, ref_is_writable, ref_is_device, ret.
  destruct (ref_writable (f_img w)); [reflexivity|].
  cbn [f_img log_event].
  destruct (ref_device (f_img w)); reflexivity.
Qed.

Lemma rvth_make_writable_total (rvth : RvtH) (w : World) :
  exists r w1, rvth_make_writable rvth w = Some (r, w1).
Proof.
  rewrite rvth_make_writable_run.
  destruct (ref_writable (f_img w)); [eauto|].
  destruct (ref_device (f_img w)); [|eauto].
  unfold ref_make_writable. eauto.
Qed.

(** The gate never seeks or writes, leaves the bytes, the position, errno
    and the platform alone, and starts with the writability query. *)
Lemma rvth_make_writable_frame (rvth : RvtH) (w w1 : World) (r : Z) :
  rvth_make_writable rvth w = Some (r, w1) ->
  ref_data (f_img w1) = ref_data (f_img w) /\
  ref_pos (f_img w1) = ref_pos (f_img w) /\
  errno w1 = errno w /\
  time_now w1 = time_now w /\
  platform w1 = platform w /\
  (exists l, io_log w1 = l ++ EvIsWritable :: io_log w /\ no_transfer l).
Proof.
  rewrite rvth_make_writable_run.
  destruct (ref_writable (f_img w)) eqn:Hw.
  - intro H. injection H as <- <-. cbn.
    repeat split. exists []. now split.
  - destruct (ref_device (f_img w)) eqn:Hd.
    + unfold ref_make_writable. cbn. intro H. injection H as <- <-.
      destruct (make_writable_ret (platform w) =? 0); cbn;
        repeat split; exists [EvMakeWritable; EvIsDevice]; now split.
    + intro H. injection H as <- <-. cbn.
      repeat split. exists [EvIsDevice]. now split.
Qed.

(** When the gate answers 0 the store is writable. *)
Lemma rvth_make_writable_ok (rvth : RvtH) (w w1 : World) :
  RVTH_ERROR_NOT_A_DEVICE <> 0 ->
  rvth_make_writable rvth w = Some (0, w1) ->
  ref_writable (f_img w1) = true.
Proof.
  intro HE. rewrite rvth_make_writable_run.
  destruct (ref_writable (f_img w)) eqn:Hw.
  - intro H. injection H as <-. exact Hw.
  - destruct (ref_device (f_img w)) eqn:Hd.
    + unfold ref_make_writable. cbn. intro H. injection H as Hr <-.
      rewrite Hr. reflexivity.
    + intro H. injection H as Hr _. contradiction.
Qed.

End Gate.

(* ================================================================== *)
(** * Writing the record *)

Lemma seek_offset_slot (bank : Z) :
  0 <= bank -> NHCD_BANKTABLE_ADDRESS_LBA + bank + 1 <= UINT32_MAX ->
  seek_offset bank = (NHCD_BANKTABLE_ADDRESS_LBA + bank + 1) * 512.
Proof.
  intros H0 H1. unfold seek_offset, LBA_TO_BYTES, uint32, RVTH_BLOCK_SIZE.
  rewrite Z.mod_small; [reflexivity|].
  unfold UINT32_MAX in H1.
  assert (0 <= NHCD_BANKTABLE_ADDRESS_LBA) by (vm_compute; discriminate).
  lia.
Qed.

Lemma return_errno_run (w : World) :
  return_errno w =
  Some (- errno (if errno w =? 0 then set_errno EIO w else w),
        if errno w =? 0 then set_errno EIO w else w).
Proof.
  unfold return_errno, bind, gets, modify, ret.
  destruct (errno w =? 0); reflexivity.
Qed.

Lemma return_errno_inv (w w' : World) (r : Z) :
  return_errno w = Some (r, w') ->
  r = - errno w' /\ errno w' <> 0 /\ (0 <= errno w -> 0 < errno w') /\
  f_img w' = f_img w /\ io_log w' = io_log w.
Proof.
  rewrite return_errno_run. intro H. injection H as <- <-.
  destruct (Z.eqb_spec (errno w) 0) as [H0|H0]; cbn.
  - split; [reflexivity|]. split; [discriminate|]. split; [reflexivity|].
    split; reflexivity.
  - split; [reflexivity|]. split; [exact H0|]. split; [lia|].
    split; reflexivity.
Qed.

Lemma return_errno_value (w w' : World) (r : Z) :
  return_errno w = Some (r, w') ->
  r = - errno w' /\
  errno w' = (if errno w =? 0 then EIO else errno w).
Proof.
  rewrite return_errno_run. intro H. injection H as <- <-.
  split; [reflexivity|]. now destruct (errno w =? 0).
Qed.

Lemma store_errno_nonneg (e : option positive) (w : World) :
  0 <= errno w -> 0 <= errno (store_errno e w).
Proof. destruct e; cbn; lia. Qed.

(** Every way the tail of [rvth_write_BankEntry] can go: the seek fails;
    or the seek is done and the store takes [n] of the 512 bytes, the call
    succeeding exactly when [n] is 512. *)
Lemma skip_creating_bank_entry_inv
    (bank : Z) (e : NHCD_BankEntry) (w w' : World) (r : Z) :
  skip_creating_bank_entry bank e w = Some (r, w') ->
  let off := seek_offset bank in
  let buf := NHCD_BankEntry_bytes e in
  (seek_error (platform w) <> None /\
   r = - errno w' /\ r <> 0 /\ (0 <= errno w -> r < 0) /\
   io_log w' = EvSeek off :: io_log w /\
   f_img w' = f_img w)
  \/
  (seek_error (platform w) = None /\
   exists n,
     0 <= n <= 512 /\
     io_log w' = EvWrite off buf n :: EvSeek off :: io_log w /\
     ref_data (f_img w') =
       written_bytes (ref_data (f_img w)) off (firstn (Z.to_nat n) buf) /\
     ((n = 512 /\ r = 0 /\ errno w' = errno w) \/
      (n < 512 /\ r = - errno w' /\ r <> 0 /\ (0 <= errno w -> r < 0)))).
Proof.
  intros H off buf. revert H.
  unfold skip_creating_bank_entry. fold (seek_offset bank). fold off buf.
  unfold bind at 1. unfold ref_seeko.
  destruct (seek_error (platform w)) as [se|] eqn:Hse.
  - cbn [negb Z.eqb]. intro H. apply return_errno_inv in H.
    destruct H as (Hr & Hne & Hpos & Hf & Hl).
    left. split; [discriminate|]. split; [exact Hr|].
    split; [lia|]. split.
    + intro H0. assert (0 < errno w'); [|lia].
      apply Hpos. cbn. now apply store_errno_nonneg.
    + rewrite Hl, Hf. now destruct se.
  - cbn [negb Z.eqb]. unfold bind, ref_write.
    set (w0 := log_event _ _).
    set (n := if ref_writable (f_img w0) then _ else 0).
    assert (Hn : 0 <= n <= 512).
    { subst n. unfold sizeof_NHCD_BankEntry.
      destruct (ref_writable (f_img w0)); lia. }
    intros H. right. split; [reflexivity|]. exists n.
    split; [exact Hn|].
    unfold sizeof_NHCD_BankEntry in H.
    destruct (Z.eqb_spec n 512) as [Hn512|Hn512]; cbn [negb] in H.
    + destruct (Z.ltb_spec n 512); [lia|].
      unfold ret in H. injection H as <- <-.
      split; [reflexivity|]. split; [reflexivity|].
      left. split; [exact Hn512|]. split; reflexivity.
    + destruct (Z.ltb_spec n 512); [|lia].
      apply return_errno_inv in H.
      destruct H as (Hr & Hne & Hpos & Hf & Hl).
      rewrite Hf, Hl.
      assert (Hfi : forall x, f_img (store_errno (write_error (platform w0)) x)
                              = f_img x) by (intro; now destruct write_error).
      assert (Hli : forall x, io_log (store_errno (write_error (platform w0)) x)
                              = io_log x) by (intro; now destruct write_error).
      rewrite Hfi, Hli.
      split; [reflexivity|]. split; [reflexivity|].
      right. split; [lia|]. split; [exact Hr|]. split; [lia|].
      intro Hge. assert (0 < errno w'); [|lia].
      apply Hpos. apply store_errno_nonneg. exact Hge.
Qed.

Lemma skip_creating_bank_entry_total
    (bank : Z) (e : NHCD_BankEntry) (w : World) :
  exists r w', skip_creating_bank_entry bank e w = Some (r, w').
Proof.
  unfold skip_creating_bank_entry, bind, ref_seeko, ref_write.
  destruct (seek_error (platform w)); cbn [negb Z.eqb].
  - rewrite return_errno_run. eauto.
  - match goal with |- context [negb ?c] => destruct c end; cbn [negb].
    + unfold ret. eauto.
    + rewrite return_errno_run. eauto.
Qed.

(** With a writable store, a seek that succeeds and room for the whole
    record, the tail writes the record and returns 0. *)
Lemma skip_creating_bank_entry_ok
    (bank : Z) (e : NHCD_BankEntry) (w : World) :
  ref_writable (f_img w) = true ->
  seek_error (platform w) = None ->
  512 <= write_room (platform w) ->
  exists w', skip_creating_bank_entry bank e w = Some (0, w').
Proof.
  intros Hw Hs Hroom.
  unfold skip_creating_bank_entry, bind, ref_seeko, ref_write.
  rewrite Hs. cbn [negb Z.eqb f_img set_f_img log_event ref_writable platform].
  rewrite Hw. unfold sizeof_NHCD_BankEntry.
  replace (Z.max 0 (Z.min 512 (write_room (platform w)))) with 512 by lia.
  change (512 =? 512) with true. change (512 <? 512) with false.
  cbn [negb]. unfold ret. eauto.
Qed.

(* ================================================================== *)
(** * rvth_write_BankEntry, path by path *)

Section WriteBankEntry.

Context {E : RvtH_Errors} {T : RvtH_Time}.

Lemma rvth_write_BankEntry_null (bank : Z) (w : World) :
  rvth_write_BankEntry None bank w = Some (- EINVAL, set_errno EINVAL w).
Proof. reflexivity. Qed.

Lemma rvth_write_BankEntry_not_hdd (rvth : RvtH) (bank : Z) (w : World) :
  rvth_is_hdd rvth = false ->
  rvth_write_BankEntry (Some rvth) bank w
    = Some (RVTH_ERROR_NOT_HDD_IMAGE, set_errno EINVAL w).
Proof.
  intro H. unfold rvth_write_BankEntry. rewrite H. reflexivity.
Qed.

Lemma rvth_write_BankEntry_range (rvth : RvtH) (bank : Z) (w : World) :
  rvth_is_hdd rvth = true -> bank_count rvth <= bank ->
  rvth_write_BankEntry (Some rvth) bank w
    = Some (- ERANGE, set_errno ERANGE w).
Proof.
  intros H Hb. unfold rvth_write_BankEntry. rewrite H. cbn [negb].
  destruct (Z.leb_spec (bank_count rvth) bank); [reflexivity | lia].
Qed.

(** Past the two checks the call is the gate followed by the rest. *)
Lemma rvth_write_BankEntry_gate (rvth : RvtH) (bank : Z) (w : World) :
  rvth_is_hdd rvth = true -> bank < bank_count rvth ->
  rvth_write_BankEntry (Some rvth) bank w =
  match rvth_make_writable rvth w with
  | Some (r, w1) =>
    if r =? 0 then
      match nth_error (entries rvth) (Z.to_nat bank) with
      | Some e =>
        match rejection e with
        | Some code => Some (code, w1)
        | None => skip_creating_bank_entry bank (record_of e (time_now w1)) w1
        end
      | None => None
      end
    else Some (r, w1)
  | None => None
  end.
Proof.
  intros H Hb. unfold rvth_write_BankEntry. rewrite H. cbn [negb].
  destruct (Z.leb_spec (bank_count rvth) bank); [lia|].
  unfold bind at 1.
  destruct (rvth_make_writable rvth w) as [[r w1]|]; [|reflexivity].
  destruct (r =? 0); cbn [negb]; [|reflexivity].
  unfold bind, entries_at.
  destruct (nth_error (entries rvth) (Z.to_nat bank)) as [e|]; [|reflexivity].
  unfold rejection, record_of, fill_bank_entry.
  destruct (is_deleted e) eqn:Hd; [reflexivity|].
  destruct (type e); cbn [orb]; try reflexivity; rewrite ?Hd; reflexivity.
Qed.

End WriteBankEntry.

(* ================================================================== *)
(** * The gate and the precondition checks *)

Section Preconditions.

Context {E : RvtH_Errors} {T : RvtH_Time}.

(** C5: [rvth_make_writable] returns 0 at once, with the store and errno
    as they were, when the store reports writable; on a read-only store
    that is not a device it returns RVTH_ERROR_NOT_A_DEVICE and the
    escalation is not called; on a read-only device it calls the
    escalation and returns what the escalation returned. *)
Theorem rvth_make_writable_gate (rvth : RvtH) (w : World) :
  (ref_writable (f_img w) = true ->
     exists w1, rvth_make_writable rvth w = Some (0, w1) /\
       f_img w1 = f_img w /\ errno w1 = errno w /\
       new_events w w1 = [EvIsWritable]) /\
  (ref_writable (f_img w) = false -> ref_device (f_img w) = false ->
     exists w1,
       rvth_make_writable rvth w = Some (RVTH_ERROR_NOT_A_DEVICE, w1) /\
       f_img w1 = f_img w /\ errno w1 = errno w /\
       new_events w w1 = [EvIsDevice; EvIsWritable]) /\
  (ref_writable (f_img w) = false -> ref_device (f_img w) = true ->
     rvth_make_writable rvth w =
       ref_make_writable (log_event EvIsDevice (log_event EvIsWritable w)) /\
     exists w1,
       rvth_make_writable rvth w = Some (make_writable_ret (platform w), w1) /\
       new_events w w1 = [EvMakeWritable; EvIsDevice; EvIsWritable]).
Proof.
  rewrite rvth_make_writable_run.
  split; [|split].
  - intros ->. eexists. split; [reflexivity|].
    split; [reflexivity|]. split; [reflexivity|].
    now apply new_events_app.
  - intros -> ->. eexists. split; [reflexivity|].
    split; [reflexivity|]. split; [reflexivity|].
    now apply new_events_app.
  - intros -> ->. split; [reflexivity|].
    unfold ref_make_writable. eexists. split; [reflexivity|].
    now apply new_events_app.
Qed.

(** C1: [rvth_write_BankEntry] on a standalone image returns
    RVTH_ERROR_NOT_HDD_IMAGE; on an HDD with [bank >= bank_count] it
    returns -ERANGE; in both cases only errno changes, so neither the gate
    nor the store has been called.  Past both checks the first call is the
    gate's writability query, and a non-zero answer of the gate is the
    answer of the call, in the world the gate left.  The two check errors
    differ from each other and from the gate's own error. *)
Theorem rvth_write_BankEntry_checks_in_order
    (rvth : RvtH) (bank : Z) (w : World) :
  RvtH_Errors_valid E ->
  (rvth_is_hdd rvth = false ->
     rvth_write_BankEntry (Some rvth) bank w
       = Some (RVTH_ERROR_NOT_HDD_IMAGE, set_errno EINVAL w)) /\
  (rvth_is_hdd rvth = true -> bank_count rvth <= bank ->
     rvth_write_BankEntry (Some rvth) bank w
       = Some (- ERANGE, set_errno ERANGE w)) /\
  (rvth_is_hdd rvth = true -> bank < bank_count rvth ->
     (forall r w1, rvth_make_writable rvth w = Some (r, w1) -> r <> 0 ->
        rvth_write_BankEntry (Some rvth) bank w = Some (r, w1)) /\
     (forall r w', rvth_write_BankEntry (Some rvth) bank w = Some (r, w') ->
        exists l, io_log w' = l ++ EvIsWritable :: io_log w)) /\
  RVTH_ERROR_NOT_HDD_IMAGE <> - ERANGE /\
  RVTH_ERROR_NOT_A_DEVICE <> RVTH_ERROR_NOT_HDD_IMAGE /\
  RVTH_ERROR_NOT_A_DEVICE <> - ERANGE.
Proof.
  intros (Hu & Hd & Hdev & Hhdd & Hnd). unfold RvtH_Errors_codes in Hnd.
  split; [apply rvth_write_BankEntry_not_hdd|].
  split; [apply rvth_write_BankEntry_range|].
  split.
  - intros Hh Hb. split.
    + intros r w1 Hg Hr. rewrite rvth_write_BankEntry_gate by assumption.
      rewrite Hg. destruct (Z.eqb_spec r 0); [contradiction | reflexivity].
    + intros r w'. rewrite rvth_write_BankEntry_gate by assumption.
      destruct (rvth_make_writable rvth w) as [[r1 w1]|] eqn:Hg;
        [|discriminate].
      apply rvth_make_writable_frame in Hg.
      destruct Hg as (_ & _ & _ & _ & _ & l & Hl & _).
      destruct (r1 =? 0).
      * destruct (nth_error (entries rvth) (Z.to_nat bank)) as [e|];
          [|discriminate].
        destruct (rejection e).
        -- intro H. injection H as _ <-. eauto.
        -- intro H. apply skip_creating_bank_entry_inv in H.
           destruct H as [(_ & _ & _ & _ & Hlog & _)
                         |(_ & n & _ & Hlog & _)]; rewrite Hlog, Hl.
           ++ exists (EvSeek (seek_offset bank) :: l). reflexivity.
           ++ eexists (_ :: _ :: l). reflexivity.
      * intro H. injection H as _ <-. eauto.
  - unfold ERANGE. repeat split; try lia.
    intro Heq. inversion Hnd as [|? ? _ Hnd1]. inversion Hnd1 as [|? ? _ Hnd2].
    inversion Hnd2 as [|? ? Hnin _]. apply Hnin. left. exact (eq_sym Heq).
Qed.

End Preconditions.

Lemma Sample_errors_valid : RvtH_Errors_valid Sample.errors.
Proof.
  unfold RvtH_Errors_valid, RvtH_Errors_codes. cbn.
  repeat split; try lia.
  repeat constructor; cbn; intuition lia.
Qed.

Lemma rvth_make_writable_gate_witness :
  (exists w1,
     rvth_make_writable (E := Sample.errors) Sample.hdd
       (Sample.world (Sample.store true false) Sample.platform_ok)
       = Some (0, w1)) /\
  (exists w1,
     rvth_make_writable (E := Sample.errors) Sample.hdd
       (Sample.world (Sample.store false false) Sample.platform_ok)
       = Some (7, w1)) /\
  (exists w1,
     rvth_make_writable (E := Sample.errors) Sample.hdd
       (Sample.world (Sample.store false true) Sample.platform_ok)
       = Some (0, w1)).
Proof.
  split; [|split].
  - destruct (rvth_make_writable_gate (E := Sample.errors) Sample.hdd
                (Sample.world (Sample.store true false) Sample.platform_ok))
      as (H & _).
    destruct (H eq_refl) as (w1 & Hw1 & _). exists w1. exact Hw1.
  - destruct (rvth_make_writable_gate (E := Sample.errors) Sample.hdd
                (Sample.world (Sample.store false false) Sample.platform_ok))
      as (_ & H & _).
    destruct (H eq_refl eq_refl) as (w1 & Hw1 & _). exists w1. exact Hw1.
  - destruct (rvth_make_writable_gate (E := Sample.errors) Sample.hdd
                (Sample.world (Sample.store false true) Sample.platform_ok))
      as (_ & _ & H).
    destruct (H eq_refl eq_refl) as (_ & w1 & Hw1 & _). exists w1. exact Hw1.
Defined.

Lemma rvth_write_BankEntry_checks_in_order_witness :
  rvth_write_BankEntry (E := Sample.errors) (T := Sample.clock)
    (Some Sample.gcm) 0
    (Sample.world (Sample.store false false) Sample.platform_ok)
  = Some (10, set_errno EINVAL
                (Sample.world (Sample.store false false) Sample.platform_ok))
  /\
  rvth_write_BankEntry (E := Sample.errors) (T := Sample.clock)
    (Some Sample.hdd) 8
    (Sample.world (Sample.store false false) Sample.platform_ok)
  = Some (- ERANGE, set_errno ERANGE
                (Sample.world (Sample.store false false) Sample.platform_ok)).
Proof.
  split.
  - destruct (rvth_write_BankEntry_checks_in_order (E := Sample.errors)
                (T := Sample.clock) Sample.gcm 0
                (Sample.world (Sample.store false false) Sample.platform_ok)
                Sample_errors_valid) as (H & _).
    apply H. reflexivity.
  - destruct (rvth_write_BankEntry_checks_in_order (E := Sample.errors)
                (T := Sample.clock) Sample.hdd 8
                (Sample.world (Sample.store false false) Sample.platform_ok)
                Sample_errors_valid) as (_ & H & _).
    apply H; [reflexivity | vm_compute; discriminate].
Defined.


(* ================================================================== *)
(** * Every path of rvth_write_BankEntry *)

Section Paths.

Context {E : RvtH_Errors} {T : RvtH_Time}.

Lemma rvth_write_BankEntry_inv
    (rvth : RvtH) (bank : Z) (w w' : World) (r : Z) :
  rvth_write_BankEntry (Some rvth) bank w = Some (r, w') ->
  (rvth_is_hdd rvth = false /\
   r = RVTH_ERROR_NOT_HDD_IMAGE /\ w' = set_errno EINVAL w)
  \/
  (rvth_is_hdd rvth = true /\ bank_count rvth <= bank /\
   r = - ERANGE /\ w' = set_errno ERANGE w)
  \/
  (rvth_is_hdd rvth = true /\ bank < bank_count rvth /\
   r <> 0 /\ rvth_make_writable rvth w = Some (r, w'))
  \/
  (rvth_is_hdd rvth = true /\ bank < bank_count rvth /\
   exists w1 e,
     rvth_make_writable rvth w = Some (0, w1) /\
     nth_error (entries rvth) (Z.to_nat bank) = Some e /\
     ((rejection e = Some r /\ w' = w1) \/
      (rejection e = None /\
       skip_creating_bank_entry bank (record_of e (time_now w1)) w1
         = Some (r, w')))).
Proof.
  destruct (rvth_is_hdd rvth) eqn:Hh.
  2:{ rewrite rvth_write_BankEntry_not_hdd by exact Hh.
      intro H. injection H as <- <-. left. repeat split. }
  destruct (Z.le_gt_cases (bank_count rvth) bank) as [Hb|Hb].
  { rewrite rvth_write_BankEntry_range by assumption.
    intro H. injection H as <- <-. right. left. repeat split. exact Hb. }
  rewrite rvth_write_BankEntry_gate by (assumption || lia).
  destruct (rvth_make_writable rvth w) as [[r1 w1]|] eqn:Hg; [|discriminate].
  destruct (Z.eqb_spec r1 0) as [->|Hr1].
  - destruct (nth_error (entries rvth) (Z.to_nat bank)) as [e|] eqn:He;
      [|discriminate].
    intro H. right. right. right.
    split; [reflexivity|]. split; [lia|]. exists w1, e.
    split; [reflexivity|]. split; [reflexivity|].
    destruct (rejection e) as [code|].
    + injection H as <- <-. left. split; reflexivity.
    + right. split; [reflexivity | exact H].
  - intro H. injection H as <- <-. right. right. left.
    split; [reflexivity|]. split; [lia|]. split; [exact Hr1 | reflexivity].
Qed.

Lemma rejection_nonzero (e : RvtH_BankEntry) (code : Z) :
  RvtH_Errors_valid E -> rejection e = Some code ->
  0 < code /\
  (code = RVTH_ERROR_BANK_UNKNOWN \/ code = RVTH_ERROR_BANK_DL_2).
Proof.
  intros (Hu & Hd & _). unfold rejection.
  destruct (is_deleted e); [discriminate|].
  destruct (type e); try discriminate; intro H; injection H as <-;
    (split; [assumption|]); [left | right]; reflexivity.
Qed.

End Paths.

(* ================================================================== *)
(** * What a run leaves in the log and in the store *)

Lemma no_transfer_app (l1 l2 : list io_event) :
  no_transfer l1 -> no_transfer l2 -> no_transfer (l1 ++ l2).
Proof.
  unfold no_transfer. intros H1 H2. now rewrite forallb_app, H1, H2.
Qed.

Lemma no_transfer_written_buffers (l : list io_event) :
  no_transfer l -> written_buffers l = [].
Proof.
  unfold no_transfer.
  induction l as [|ev l IH]; [reflexivity|].
  cbn [forallb]. intro H. apply andb_prop in H. destruct H as (Hev & Hl).
  destruct ev; cbn in Hev |- *; try discriminate; now apply IH.
Qed.

Section Runs.

Context {E : RvtH_Errors} {T : RvtH_Time}.

(** The events of a gate run. *)
Lemma rvth_make_writable_events (rvth : RvtH) (w w1 : World) (r : Z) :
  rvth_make_writable rvth w = Some (r, w1) ->
  exists l, io_log w1 = l ++ io_log w /\ new_events w w1 = l /\ no_transfer l.
Proof.
  intro H. apply rvth_make_writable_frame in H.
  destruct H as (_ & _ & _ & _ & _ & l & Hl & Hnt).
  exists (l ++ [EvIsWritable]).
  assert (Hlog : io_log w1 = (l ++ [EvIsWritable]) ++ io_log w)
    by now rewrite <- app_assoc.
  split; [exact Hlog|]. split; [now apply new_events_app|].
  now apply no_transfer_app.
Qed.

(** The gate followed by the tail with record [rec]: one seek to the
    slot, at most one write, of the bytes of [rec]; a negative result on
    an I/O failure; on success the slot holds the bytes of [rec] and every
    other byte is as before. *)
Lemma gate_then_write (rvth : RvtH) (bank : Z) (rec : NHCD_BankEntry)
    (w w1 w' : World) (r : Z) :
  rvth_make_writable rvth w = Some (0, w1) ->
  skip_creating_bank_entry bank rec w1 = Some (r, w') ->
  let off := seek_offset bank in
  let buf := NHCD_BankEntry_bytes rec in
  In (EvSeek off) (new_events w w') /\
  Forall (fun b => b = buf) (written_buffers (new_events w w')) /\
  (0 <= errno w -> r <= 0) /\
  (r = 0 ->
     (exists l, new_events w w' = EvWrite off buf 512 :: EvSeek off :: l /\
                no_transfer l) /\
     written_buffers (new_events w w') = [buf] /\
     bytes_at (f_img w') off 512 = buf /\
     (forall o, ~ (off <= o < off + 512) ->
        ref_data (f_img w') o = ref_data (f_img w) o)).
Proof.
  intros Hg Hs off buf.
  pose proof (rvth_make_writable_frame _ _ _ _ Hg)
    as (Hdata & _ & Herrno & _ & _ & _).
  destruct (rvth_make_writable_events _ _ _ _ Hg) as (l & Hl & _ & Hnt).
  pose proof (no_transfer_written_buffers _ Hnt) as Hwb.
  assert (Hlen : length buf = 512%nat).
  { pose proof (NHCD_BankEntry_bytes_length rec) as H.
    unfold sizeof_NHCD_BankEntry in H. subst buf. lia. }
  apply skip_creating_bank_entry_inv in Hs. fold off buf in Hs.
  destruct Hs as [(_ & _ & Hr & Hneg & Hlog & _)
                 |(_ & n & Hn & Hlog & Hd & Hres)].
  - assert (Hev : new_events w w' = EvSeek off :: l)
      by (apply new_events_app; now rewrite Hlog, Hl).
    rewrite Hev. cbn [written_buffers]. rewrite Hwb.
    split; [now left|]. split; [constructor|].
    split; [intro; rewrite Herrno in Hneg; lia | intro; contradiction].
  - assert (Hev : new_events w w' = EvWrite off buf n :: EvSeek off :: l)
      by (apply new_events_app; now rewrite Hlog, Hl).
    rewrite Hev. cbn [written_buffers]. rewrite Hwb.
    split; [right; now left|]. split; [now repeat constructor|].
    split.
    + intro H0. rewrite Herrno in Hres.
      destruct Hres as [(_ & -> & _) | (_ & _ & _ & Hneg)]; lia.
    + intros ->. destruct Hres as [(-> & _) | (_ & _ & Hr & _)]; [|lia].
      rewrite firstn_all2 in Hd by lia.
      split; [exists l; now split|]. split; [reflexivity|].
      split.
      * rewrite <- Hlen at 1. eapply bytes_at_written. exact Hd.
      * intros o Ho. rewrite Hd, <- Hdata.
        apply written_bytes_outside. lia.
Qed.

(** When the seek succeeds the record is handed to the store, whatever
    the store then takes of it. *)
Lemma gate_then_write_seek_ok (rvth : RvtH) (bank : Z) (rec : NHCD_BankEntry)
    (w w1 w' : World) (r : Z) :
  rvth_make_writable rvth w = Some (0, w1) ->
  skip_creating_bank_entry bank rec w1 = Some (r, w') ->
  seek_error (platform w) = None ->
  written_buffers (new_events w w') = [NHCD_BankEntry_bytes rec].
Proof.
  intros Hg Hs Hse.
  pose proof (rvth_make_writable_frame _ _ _ _ Hg)
    as (_ & _ & _ & _ & Hplat & _).
  destruct (rvth_make_writable_events _ _ _ _ Hg) as (l & Hl & _ & Hnt).
  apply skip_creating_bank_entry_inv in Hs.
  destruct Hs as [(Hne & _) | (_ & n & _ & Hlog & _)].
  - rewrite Hplat in Hne. contradiction.
  - rewrite (new_events_app w w'
               (EvWrite (seek_offset bank) (NHCD_BankEntry_bytes rec) n
                  :: EvSeek (seek_offset bank) :: l))
      by now rewrite Hlog, Hl.
    cbn [written_buffers]. now rewrite (no_transfer_written_buffers _ Hnt).
Qed.

End Runs.

(* ================================================================== *)
(** * The record and the slot *)

Section Record.

Context {E : RvtH_Errors} {T : RvtH_Time}.

(** C3: for an entry that is deleted, or of type Empty, whatever its
    type, timestamp and LBAs, a call that is past the checks and the gate
    seeks to the slot and goes on to write the untouched, zeroed record:
    the only buffer handed to the store is 512 zero bytes, it is handed
    over whenever the seek succeeds, and when the store takes it the call
    returns 0 and the slot holds 512 zero bytes. *)
Theorem rvth_write_BankEntry_deleted_or_empty
    (rvth : RvtH) (bank : Z) (e : RvtH_BankEntry) (w w1 : World) :
  rvth_is_hdd rvth = true -> bank < bank_count rvth ->
  nth_error (entries rvth) (Z.to_nat bank) = Some e ->
  rvth_make_writable rvth w = Some (0, w1) ->
  is_deleted e = true \/ type e = RVTH_BankType_Empty ->
  rvth_write_BankEntry (Some rvth) bank w
    = skip_creating_bank_entry bank NHCD_BankEntry_zero w1 /\
  NHCD_BankEntry_bytes NHCD_BankEntry_zero = repeat x00 512 /\
  exists r w',
    rvth_write_BankEntry (Some rvth) bank w = Some (r, w') /\
    In (EvSeek (seek_offset bank)) (new_events w w') /\
    Forall (fun buf => buf = repeat x00 512)
           (written_buffers (new_events w w')) /\
    (seek_error (platform w) = None ->
       written_buffers (new_events w w') = [repeat x00 512]) /\
    (r = 0 ->
       written_buffers (new_events w w') = [repeat x00 512] /\
       bytes_at (f_img w') (seek_offset bank) 512 = repeat x00 512) /\
    (RvtH_Errors_valid E ->
     seek_error (platform w) = None -> 512 <= write_room (platform w) ->
       r = 0 /\
       written_buffers (new_events w w') = [repeat x00 512] /\
       bytes_at (f_img w') (seek_offset bank) 512 = repeat x00 512).
Proof.
  intros Hh Hb He Hg Hcase.
  assert (Hrun : rvth_write_BankEntry (Some rvth) bank w
                 = skip_creating_bank_entry bank NHCD_BankEntry_zero w1).
  { rewrite rvth_write_BankEntry_gate by assumption.
    rewrite Hg, He. cbn [Z.eqb].
    unfold rejection, record_of.
    destruct (is_deleted e); [reflexivity|].
    destruct Hcase as [Hd | ->]; [discriminate Hd | reflexivity]. }
  split; [exact Hrun|]. split; [exact NHCD_BankEntry_zero_bytes|].
  destruct (skip_creating_bank_entry_total bank NHCD_BankEntry_zero w1)
    as (r & w' & Hs).
  exists r, w'. rewrite Hrun. split; [exact Hs|].
  destruct (gate_then_write rvth bank _ w w1 w' r Hg Hs)
    as (Hseek & Hall & _ & Hok).
  pose proof (gate_then_write_seek_ok rvth bank _ w w1 w' r Hg Hs) as Hhand.
  rewrite NHCD_BankEntry_zero_bytes in Hall, Hok, Hhand.
  split; [exact Hseek|]. split; [exact Hall|]. split; [exact Hhand|].
  assert (Hzero : r = 0 ->
            written_buffers (new_events w w') = [repeat x00 512] /\
            bytes_at (f_img w') (seek_offset bank) 512 = repeat x00 512).
  { intro Hr. destruct (Hok Hr) as (_ & Hwb & Hbytes & _). now split. }
  split; [exact Hzero|].
  intros (_ & _ & Hdev & _) Hse Hroom.
  pose proof (rvth_make_writable_frame _ _ _ _ Hg)
    as (_ & _ & _ & _ & Hplat & _).
  assert (Hw1 : ref_writable (f_img w1) = true).
  { apply (rvth_make_writable_ok rvth w); [lia | exact Hg]. }
  destruct (skip_creating_bank_entry_ok bank NHCD_BankEntry_zero w1 Hw1)
    as (w2 & Hs2); try (rewrite Hplat; assumption).
  rewrite Hs in Hs2. injection Hs2 as -> _.
  split; [reflexivity | now apply Hzero].
Qed.

(** C4: a call that returns 0, for a bank index whose slot LBA fits the
    32-bit sum (every index of an 8-bank table does), did one seek, to
    (bank table base LBA + bank + 1) * 512, and one write, of 512 bytes,
    which are now in the store at that offset; every byte outside these
    512 is as before, so the header slot and the other entry slots are
    unchanged. *)
Theorem rvth_write_BankEntry_one_slot
    (rvth : RvtH) (bank : Z) (w w' : World) :
  RvtH_Errors_valid E ->
  0 <= bank -> NHCD_BANKTABLE_ADDRESS_LBA + bank + 1 <= UINT32_MAX ->
  rvth_write_BankEntry (Some rvth) bank w = Some (0, w') ->
  let off := (NHCD_BANKTABLE_ADDRESS_LBA + bank + 1) * 512 in
  bank < bank_count rvth /\
  (exists buf l,
     length buf = 512%nat /\
     new_events w w' = EvWrite off buf 512 :: EvSeek off :: l /\
     no_transfer l /\
     bytes_at (f_img w') off 512 = buf) /\
  (forall o, ~ (off <= o < off + 512) ->
     ref_data (f_img w') o = ref_data (f_img w) o) /\
  (forall j i, j <> bank + 1 -> 0 <= i < 512 ->
     ref_data (f_img w') (slot_offset j + i)
       = ref_data (f_img w) (slot_offset j + i)).
Proof.
  intros Hv Hb0 Hfit Hrun off.
  assert (Hoff : seek_offset bank = off) by now apply seek_offset_slot.
  pose proof Hrun as Hpath. apply rvth_write_BankEntry_inv in Hpath.
  pose proof Hv as (Hu & Hd & Hdev & Hhdd & _).
  destruct Hpath as [(_ & Hr & _) | [(_ & _ & Hr & _) | [(_ & _ & Hr & _) | H]]];
    try lia; try (unfold ERANGE in Hr; lia).
  destruct H as (Hh & Hb & w1 & e & Hg & He & [(Hrej & _) | (Hrej & Hs)]).
  { apply (rejection_nonzero _ _ Hv) in Hrej. lia. }
  destruct (gate_then_write rvth bank _ w w1 w' 0 Hg Hs) as (_ & _ & _ & Hok).
  destruct (Hok eq_refl) as ((l & Hev & Hnt) & _ & Hbytes & Hframe).
  rewrite Hoff in Hev, Hbytes, Hframe.
  split; [exact Hb|]. split.
  - exists (NHCD_BankEntry_bytes (record_of e (time_now w1))), l.
    split; [|now repeat split].
    pose proof (NHCD_BankEntry_bytes_length (record_of e (time_now w1))) as Hl.
    unfold sizeof_NHCD_BankEntry in Hl. lia.
  - split; [exact Hframe|].
    intros j i Hj Hi. apply Hframe. unfold slot_offset. subst off. lia.
Qed.

(** C10: for a deleted entry of any type, Unknown and Wii_DL_Bank2
    included, a call that is past the checks and the gate does not return
    the errors of the type check: it seeks to the slot and hands the
    zeroed record to the store, and when the seek succeeds and the store
    takes the 512 bytes it returns 0 with the slot zeroed. *)
Theorem rvth_write_BankEntry_deleted_first
    (rvth : RvtH) (bank : Z) (e : RvtH_BankEntry) (w w1 : World) :
  RvtH_Errors_valid E -> 0 <= errno w ->
  rvth_is_hdd rvth = true -> bank < bank_count rvth ->
  nth_error (entries rvth) (Z.to_nat bank) = Some e ->
  rvth_make_writable rvth w = Some (0, w1) ->
  is_deleted e = true ->
  exists r w',
    rvth_write_BankEntry (Some rvth) bank w = Some (r, w') /\
    r <> RVTH_ERROR_BANK_UNKNOWN /\ r <> RVTH_ERROR_BANK_DL_2 /\
    In (EvSeek (seek_offset bank)) (new_events w w') /\
    Forall (fun buf => buf = repeat x00 512)
           (written_buffers (new_events w w')) /\
    (seek_error (platform w) = None -> 512 <= write_room (platform w) ->
       r = 0 /\
       written_buffers (new_events w w') = [repeat x00 512] /\
       bytes_at (f_img w') (seek_offset bank) 512 = repeat x00 512).
Proof.
  intros Hv Herrno Hh Hb He Hg Hdel.
  pose proof Hv as (Hu & Hd & Hdev & _).
  assert (Hrun : rvth_write_BankEntry (Some rvth) bank w
                 = skip_creating_bank_entry bank NHCD_BankEntry_zero w1).
  { rewrite rvth_write_BankEntry_gate by assumption.
    rewrite Hg, He. cbn [Z.eqb].
    unfold rejection, record_of. now rewrite Hdel. }
  destruct (skip_creating_bank_entry_total bank NHCD_BankEntry_zero w1)
    as (r & w' & Hs).
  exists r, w'. rewrite Hrun. split; [exact Hs|].
  destruct (gate_then_write rvth bank _ w w1 w' r Hg Hs)
    as (Hseek & Hall & Hneg & Hok).
  rewrite NHCD_BankEntry_zero_bytes in Hall, Hok.
  specialize (Hneg Herrno).
  split; [lia|]. split; [lia|]. split; [exact Hseek|]. split; [exact Hall|].
  intros Hse Hroom.
  pose proof (rvth_make_writable_frame _ _ _ _ Hg)
    as (_ & _ & _ & _ & Hplat & _).
  assert (Hw1 : ref_writable (f_img w1) = true).
  { apply (rvth_make_writable_ok rvth w); [lia | exact Hg]. }
  destruct (skip_creating_bank_entry_ok bank NHCD_BankEntry_zero w1 Hw1)
    as (w2 & Hs2); try (rewrite Hplat; assumption).
  rewrite Hs in Hs2. injection Hs2 as -> _.
  split; [reflexivity|].
  destruct (Hok eq_refl) as (_ & Hwb & Hbytes & _). now split.
Qed.

(** C2, as the code has it: for an entry that is not deleted and whose
    type is Unknown or Wii_DL_Bank2, whatever its other fields, a call
    that is past the checks and the gate returns
    RVTH_ERROR_BANK_UNKNOWN, respectively RVTH_ERROR_BANK_DL_2, in the
    world the gate left: no seek, no write, the bytes of the store as
    before. *)
Theorem rvth_write_BankEntry_rejects_type
    (rvth : RvtH) (bank : Z) (e : RvtH_BankEntry) (w w1 : World) :
  rvth_is_hdd rvth = true -> bank < bank_count rvth ->
  nth_error (entries rvth) (Z.to_nat bank) = Some e ->
  rvth_make_writable rvth w = Some (0, w1) ->
  is_deleted e = false ->
  (type e = RVTH_BankType_Unknown ->
     rvth_write_BankEntry (Some rvth) bank w
       = Some (RVTH_ERROR_BANK_UNKNOWN, w1)) /\
  (type e = RVTH_BankType_Wii_DL_Bank2 ->
     rvth_write_BankEntry (Some rvth) bank w
       = Some (RVTH_ERROR_BANK_DL_2, w1)) /\
  no_transfer (new_events w w1) /\
  written_buffers (new_events w w1) = [] /\
  ref_data (f_img w1) = ref_data (f_img w).
Proof.
  intros Hh Hb He Hg Hdel.
  assert (Hrun : forall t code,
            type e = t -> rejection e = Some code ->
            rvth_write_BankEntry (Some rvth) bank w = Some (code, w1)).
  { intros t code _ Hrej. rewrite rvth_write_BankEntry_gate by assumption.
    now rewrite Hg, He, Hrej. }
  split; [|split].
  - intro Ht. apply (Hrun _ _ Ht). unfold rejection. now rewrite Hdel, Ht.
  - intro Ht. apply (Hrun _ _ Ht). unfold rejection. now rewrite Hdel, Ht.
  - destruct (rvth_make_writable_events _ _ _ _ Hg) as (l & _ & -> & Hnt).
    split; [exact Hnt|]. split; [now apply no_transfer_written_buffers|].
    now apply (rvth_make_writable_frame _ _ _ _ Hg).
Qed.

(** C6, as the code has it: on a read-only store that is not a device
    the call fails without a seek or a write and leaves the store as it
    was, whatever the handle and the index; for an HDD handle and an index
    in range the failure is RVTH_ERROR_NOT_A_DEVICE, after the two queries
    of the gate; for a handle that is not an HDD image it is
    RVTH_ERROR_NOT_HDD_IMAGE, and for an HDD handle and an index out of
    range it is -ERANGE, both before the store is queried. *)
Theorem rvth_write_BankEntry_read_only_file
    (rvth : RvtH) (bank : Z) (w : World) :
  RvtH_Errors_valid E ->
  ref_writable (f_img w) = false -> ref_device (f_img w) = false ->
  (exists r w',
     rvth_write_BankEntry (Some rvth) bank w = Some (r, w') /\
     r <> 0 /\ f_img w' = f_img w /\
     no_transfer (new_events w w') /\
     written_buffers (new_events w w') = []) /\
  (rvth_is_hdd rvth = true -> bank < bank_count rvth ->
     exists w',
       rvth_write_BankEntry (Some rvth) bank w
         = Some (RVTH_ERROR_NOT_A_DEVICE, w') /\
       f_img w' = f_img w /\
       new_events w w' = [EvIsDevice; EvIsWritable]) /\
  (rvth_is_hdd rvth = false ->
     rvth_write_BankEntry (Some rvth) bank w
       = Some (RVTH_ERROR_NOT_HDD_IMAGE, set_errno EINVAL w) /\
     new_events w (set_errno EINVAL w) = []) /\
  (rvth_is_hdd rvth = true -> bank_count rvth <= bank ->
     rvth_write_BankEntry (Some rvth) bank w
       = Some (- ERANGE, set_errno ERANGE w) /\
     new_events w (set_errno ERANGE w) = []).
Proof.
  intros Hv Hw Hd. pose proof Hv as (_ & _ & Hdev & Hhdd & _).
  set (w1 := log_event EvIsDevice (log_event EvIsWritable w)).
  assert (Hg : rvth_make_writable rvth w
               = Some (RVTH_ERROR_NOT_A_DEVICE, w1))
    by now rewrite rvth_make_writable_run, Hw, Hd.
  assert (Hf : f_img w1 = f_img w) by reflexivity.
  assert (Hev : new_events w w1 = [EvIsDevice; EvIsWritable])
    by now apply new_events_app.
  assert (Hin : rvth_is_hdd rvth = true -> bank < bank_count rvth ->
                rvth_write_BankEntry (Some rvth) bank w
                  = Some (RVTH_ERROR_NOT_A_DEVICE, w1)).
  { intros Hh Hb. rewrite rvth_write_BankEntry_gate by assumption.
    rewrite Hg. destruct (Z.eqb_spec RVTH_ERROR_NOT_A_DEVICE 0); [lia|].
    reflexivity. }
  split.
  - destruct (rvth_is_hdd rvth) eqn:Hh.
    + destruct (Z.le_gt_cases (bank_count rvth) bank) as [Hb|Hb].
      * rewrite rvth_write_BankEntry_range by assumption.
        exists (- ERANGE), (set_errno ERANGE w).
        split; [reflexivity|]. split; [discriminate|].
        split; [reflexivity|].
        rewrite (new_events_app w (set_errno ERANGE w) []) by reflexivity.
        now split.
      * exists RVTH_ERROR_NOT_A_DEVICE, w1.
        split; [apply Hin; [reflexivity | lia]|].
        split; [lia|]. split; [exact Hf|]. rewrite Hev. now split.
    + rewrite rvth_write_BankEntry_not_hdd by exact Hh.
      exists RVTH_ERROR_NOT_HDD_IMAGE, (set_errno EINVAL w).
      split; [reflexivity|]. split; [lia|]. split; [reflexivity|].
      rewrite (new_events_app w (set_errno EINVAL w) []) by reflexivity.
      now split.
  - split; [|split].
    + intros Hh Hb. exists w1. split; [now apply Hin|]. now split.
    + intros Hh. rewrite rvth_write_BankEntry_not_hdd by exact Hh.
      split; [reflexivity|]. now apply new_events_app.
    + intros Hh Hb. rewrite rvth_write_BankEntry_range by assumption.
      split; [reflexivity|]. now apply new_events_app.
Qed.

End Record.

(* ================================================================== *)
(** * Error codes *)

Section ErrorCodes.

Context {E : RvtH_Errors} {T : RvtH_Time}.

(** C9, as the code has it: a failing call returns a positive RvtH_Errors
    code (unknown bank, second bank of a dual-layer image, not a device,
    not an HDD image), or a negative POSIX code (-EINVAL for a NULL
    handle, -ERANGE for a bank index out of range, -errno after a failed
    seek or write), or whatever the store's escalation returned.  The sign
    tells the RvtH_Errors codes from the POSIX codes; the out-of-range
    failure is the POSIX code -ERANGE, none of the RvtH_Errors codes. *)
Theorem rvth_write_BankEntry_error_codes
    (rvth : option RvtH) (bank : Z) (w w' : World) (r : Z) :
  RvtH_Errors_valid E -> 0 <= errno w ->
  rvth_write_BankEntry rvth bank w = Some (r, w') -> r <> 0 ->
  ((0 < r /\ In r (RvtH_Errors_codes E))
   \/
   (r < 0 /\
    (r = - EINVAL \/ r = - ERANGE \/
     (r = - errno w' /\ In (EvSeek (seek_offset bank)) (new_events w w'))))
   \/
   (r = make_writable_ret (platform w) /\
    In EvMakeWritable (new_events w w')))
  /\
  (forall h, rvth = Some h -> rvth_is_hdd h = true -> bank_count h <= bank ->
     r = - ERANGE /\ r < 0 /\ ~ In r (RvtH_Errors_codes E)).
Proof.
  intros Hv Herrno Hrun Hr.
  pose proof Hv as (Hu & Hd & Hdev & Hhdd & _).
  split.
  - destruct rvth as [h|].
    2:{ rewrite rvth_write_BankEntry_null in Hrun. injection Hrun as <- _.
        right. left. split; [unfold EINVAL; lia | now left]. }
    apply rvth_write_BankEntry_inv in Hrun.
    destruct Hrun as [(_ & -> & _) | [(_ & _ & -> & _) | [(_ & _ & _ & Hg) | H]]].
    + left. split; [exact Hhdd | unfold RvtH_Errors_codes; cbn [In]; auto 8].
    + right. left. split; [unfold ERANGE; lia | right; now left].
    + pose proof Hg as Hg'. rewrite rvth_make_writable_run in Hg'.
      destruct (ref_writable (f_img w)).
      { injection Hg' as Hr0 _. congruence. }
      destruct (ref_device (f_img w)).
      * right. right. unfold ref_make_writable in Hg'.
        injection Hg' as <- <-. split; [reflexivity|].
        rewrite (new_events_app w _ [EvMakeWritable; EvIsDevice; EvIsWritable])
          by reflexivity.
        now left.
      * injection Hg' as <- _. left. split; [exact Hdev | unfold RvtH_Errors_codes; cbn [In]; auto 8].
    + destruct H as (_ & _ & w1 & e & Hg & _ & [(Hrej & _) | (_ & Hs)]).
      * apply (rejection_nonzero _ _ Hv) in Hrej.
        destruct Hrej as (Hpos & Hcode).
        left. split; [exact Hpos|].
        destruct Hcode as [-> | ->]; unfold RvtH_Errors_codes; cbn [In]; auto 8.
      * destruct (gate_then_write h bank _ w w1 w' r Hg Hs)
          as (Hseek & _ & Hneg & _).
        right. left. split; [specialize (Hneg Herrno); lia|].
        right. right. split; [|exact Hseek].
        apply skip_creating_bank_entry_inv in Hs.
        destruct Hs as [(_ & Hre & _) | (_ & n & _ & _ & _ & Hres)];
          [exact Hre|].
        destruct Hres as [(_ & Hr0 & _) | (_ & Hre & _)];
          [contradiction | exact Hre].
  - intros h -> Hh Hb.
    rewrite rvth_write_BankEntry_range in Hrun by assumption.
    injection Hrun as <- _.
    split; [reflexivity|]. split; [unfold ERANGE; lia|].
    unfold ERANGE, RvtH_Errors_codes. cbn [In]. lia.
Qed.

End ErrorCodes.

(* ================================================================== *)
(** * Sample runs *)

(** C2 fails as stated: bank 1 of the sample HDD is of type Unknown and
    deleted, and on a device that can be made writable the call returns 0
    and puts 512 zero bytes where the store held 0xFF; likewise for the
    deleted Wii_DL_Bank2 entry of bank 2. *)
Lemma rvth_write_BankEntry_deleted_unknown_written :
  option_map type (nth_error (entries Sample.hdd) 1)
    = Some RVTH_BankType_Unknown /\
  option_map fst
    (rvth_write_BankEntry (E := Sample.errors) (T := Sample.clock)
       (Some Sample.hdd) 1 Sample.locked_device) = Some 0 /\
  bytes_at (f_img Sample.locked_device) (slot_offset 2) 4
    = [xff; xff; xff; xff] /\
  bytes_at
    (f_img (Sample.final
              (rvth_write_BankEntry (E := Sample.errors) (T := Sample.clock)
                 (Some Sample.hdd) 1) Sample.locked_device))
    (slot_offset 2) 4 = [x00; x00; x00; x00] /\
  option_map type (nth_error (entries Sample.hdd) 2)
    = Some RVTH_BankType_Wii_DL_Bank2 /\
  option_map fst
    (rvth_write_BankEntry (E := Sample.errors) (T := Sample.clock)
       (Some Sample.hdd) 2 Sample.locked_device) = Some 0 /\
  written_buffers
    (new_events Sample.locked_device
       (Sample.final
          (rvth_write_BankEntry (E := Sample.errors) (T := Sample.clock)
             (Some Sample.hdd) 2) Sample.locked_device))
    = [repeat x00 512].
Proof. vm_compute. repeat split. Qed.

(** C9 fails as stated: with bank 8 the sample HDD's call returns -ERANGE
    and leaves ERANGE in errno; the next call, for bank 0, whose seek
    fails without touching errno, returns -ERANGE as well, after the gate
    and the seek.  The code is negative, a POSIX code by the convention of
    rvth_p.c, and none of the sample RvtH_Errors codes. *)
Lemma rvth_write_BankEntry_range_error_ambiguous :
  rvth_write_BankEntry (E := Sample.errors) (T := Sample.clock)
    (Some Sample.hdd) 8 Sample.bad_device
    = Some (- ERANGE, set_errno ERANGE Sample.bad_device) /\
  option_map fst
    (rvth_write_BankEntry (E := Sample.errors) (T := Sample.clock)
       (Some Sample.hdd) 0 (set_errno ERANGE Sample.bad_device))
    = Some (- ERANGE) /\
  new_events (set_errno ERANGE Sample.bad_device)
    (Sample.final
       (rvth_write_BankEntry (E := Sample.errors) (T := Sample.clock)
          (Some Sample.hdd) 0) (set_errno ERANGE Sample.bad_device))
    = [EvSeek 0x60000200; EvMakeWritable; EvIsDevice; EvIsWritable] /\
  - ERANGE < 0 /\
  ~ In (- ERANGE) (RvtH_Errors_codes Sample.errors).
Proof.
  split; [reflexivity|]. split; [vm_compute; reflexivity|].
  split; [vm_compute; reflexivity|]. split; [reflexivity|].
  vm_compute. intros [H|[H|[H|[H|[]]]]]; discriminate H.
Qed.

(** C6 fails as stated: on a read-only store that is a file, not a
    device, the call for a standalone image returns
    RVTH_ERROR_NOT_HDD_IMAGE, and the call for bank 8 of the 8-bank HDD
    image returns -ERANGE; neither is RVTH_ERROR_NOT_A_DEVICE. *)
Lemma rvth_write_BankEntry_read_only_file_other_errors :
  ref_writable (f_img Sample.image_file) = false /\
  ref_device (f_img Sample.image_file) = false /\
  rvth_write_BankEntry (E := Sample.errors) (T := Sample.clock)
    (Some Sample.gcm) 0 Sample.image_file
    = Some (RVTH_ERROR_NOT_HDD_IMAGE (RvtH_Errors := Sample.errors),
            set_errno EINVAL Sample.image_file) /\
  rvth_write_BankEntry (E := Sample.errors) (T := Sample.clock)
    (Some Sample.hdd) 8 Sample.image_file
    = Some (- ERANGE, set_errno ERANGE Sample.image_file) /\
  RVTH_ERROR_NOT_HDD_IMAGE (RvtH_Errors := Sample.errors)
    <> RVTH_ERROR_NOT_A_DEVICE (RvtH_Errors := Sample.errors) /\
  - ERANGE <> RVTH_ERROR_NOT_A_DEVICE (RvtH_Errors := Sample.errors).
Proof. repeat split; discriminate. Qed.

Lemma Sample_final_run {A} (m : M A) (w : World) (a : A) :
  option_map fst (m w) = Some a -> m w = Some (a, Sample.final m w).
Proof.
  unfold Sample.final. destruct (m w) as [[a' w']|]; [|discriminate].
  cbn. intro H. injection H as ->. reflexivity.
Qed.

Lemma rvth_write_BankEntry_rejects_type_witness :
  rvth_write_BankEntry (E := Sample.errors) (T := Sample.clock)
    (Some Sample.hdd) 3 Sample.open_device
    = Some (4, log_event EvIsWritable Sample.open_device) /\
  rvth_write_BankEntry (E := Sample.errors) (T := Sample.clock)
    (Some Sample.hdd) 4 Sample.open_device
    = Some (6, log_event EvIsWritable Sample.open_device).
Proof.
  split.
  - destruct (rvth_write_BankEntry_rejects_type (E := Sample.errors)
                (T := Sample.clock) Sample.hdd 3 (Sample.unknown_bank false)
                Sample.open_device (log_event EvIsWritable Sample.open_device)
                eq_refl eq_refl eq_refl eq_refl eq_refl) as (H & _).
    exact (H eq_refl).
  - destruct (rvth_write_BankEntry_rejects_type (E := Sample.errors)
                (T := Sample.clock) Sample.hdd 4 (Sample.dl2_bank false)
                Sample.open_device (log_event EvIsWritable Sample.open_device)
                eq_refl eq_refl eq_refl eq_refl eq_refl) as (_ & H & _).
    exact (H eq_refl).
Defined.

Lemma rvth_write_BankEntry_deleted_or_empty_witness :
  (exists r w',
     rvth_write_BankEntry (E := Sample.errors) (T := Sample.clock)
       (Some Sample.hdd) 2 Sample.open_device = Some (r, w') /\
     r = 0 /\
     written_buffers (new_events Sample.open_device w') = [repeat x00 512] /\
     bytes_at (f_img w') (seek_offset 2) 512 = repeat x00 512) /\
  (exists r w',
     rvth_write_BankEntry (E := Sample.errors) (T := Sample.clock)
       (Some Sample.hdd) 5 Sample.open_device = Some (r, w') /\
     r = 0 /\
     written_buffers (new_events Sample.open_device w') = [repeat x00 512] /\
     bytes_at (f_img w') (seek_offset 5) 512 = repeat x00 512).
Proof.
  assert (Hroom : 512 <= write_room (platform Sample.open_device))
    by (vm_compute; discriminate).
  split.
  - destruct (rvth_write_BankEntry_deleted_or_empty (E := Sample.errors)
                (T := Sample.clock) Sample.hdd 2 (Sample.dl2_bank true)
                Sample.open_device (log_event EvIsWritable Sample.open_device)
                eq_refl eq_refl eq_refl eq_refl (or_introl eq_refl))
      as (_ & _ & r & w' & Hrun & _ & _ & _ & _ & Hok).
    exists r, w'. split; [exact Hrun|].
    exact (Hok Sample_errors_valid eq_refl Hroom).
  - destruct (rvth_write_BankEntry_deleted_or_empty (E := Sample.errors)
                (T := Sample.clock) Sample.hdd 5 Sample.empty_bank
                Sample.open_device (log_event EvIsWritable Sample.open_device)
                eq_refl eq_refl eq_refl eq_refl (or_intror eq_refl))
      as (_ & _ & r & w' & Hrun & _ & _ & _ & _ & Hok).
    exists r, w'. split; [exact Hrun|].
    exact (Hok Sample_errors_valid eq_refl Hroom).
Defined.

Lemma rvth_write_BankEntry_one_slot_witness :
  bytes_at
    (f_img (Sample.final
              (rvth_write_BankEntry (E := Sample.errors) (T := Sample.clock)
                 (Some Sample.hdd) 0) Sample.locked_device))
    (slot_offset 0) 4
  = bytes_at (f_img Sample.locked_device) (slot_offset 0) 4.
Proof.
  assert (Hrun : rvth_write_BankEntry (E := Sample.errors) (T := Sample.clock)
                   (Some Sample.hdd) 0 Sample.locked_device
                 = Some (0, Sample.final
                              (rvth_write_BankEntry (E := Sample.errors)
                                 (T := Sample.clock) (Some Sample.hdd) 0)
                              Sample.locked_device))
    by (apply Sample_final_run; vm_compute; reflexivity).
  assert (H0 : 0 <= 0) by lia.
  assert (Hfit : NHCD_BANKTABLE_ADDRESS_LBA + 0 + 1 <= UINT32_MAX)
    by (vm_compute; discriminate).
  destruct (rvth_write_BankEntry_one_slot (E := Sample.errors)
              (T := Sample.clock) Sample.hdd 0 Sample.locked_device _
              Sample_errors_valid H0 Hfit Hrun) as (_ & _ & _ & Hslots).
  unfold bytes_at. cbn [map seq].
  rewrite !Hslots by lia. reflexivity.
Defined.

Lemma rvth_write_BankEntry_deleted_first_witness :
  exists r w',
    rvth_write_BankEntry (E := Sample.errors) (T := Sample.clock)
      (Some Sample.hdd) 1 Sample.open_device = Some (r, w') /\
    r = 0 /\
    bytes_at (f_img w') (seek_offset 1) 512 = repeat x00 512.
Proof.
  assert (Herrno : 0 <= errno Sample.open_device) by (vm_compute; discriminate).
  destruct (rvth_write_BankEntry_deleted_first (E := Sample.errors)
              (T := Sample.clock) Sample.hdd 1 (Sample.unknown_bank true)
              Sample.open_device (log_event EvIsWritable Sample.open_device)
              Sample_errors_valid Herrno eq_refl eq_refl eq_refl eq_refl
              eq_refl)
    as (r & w' & Hrun & _ & _ & _ & _ & Hok).
  exists r, w'. split; [exact Hrun|].
  destruct Hok as (Hr & _ & Hbytes); [reflexivity | vm_compute; discriminate|].
  split; [exact Hr | exact Hbytes].
Defined.

Lemma rvth_write_BankEntry_read_only_file_witness :
  exists w',
    rvth_write_BankEntry (E := Sample.errors) (T := Sample.clock)
      (Some Sample.hdd) 0 Sample.image_file = Some (7, w') /\
    f_img w' = f_img Sample.image_file /\
    new_events Sample.image_file w' = [EvIsDevice; EvIsWritable].
Proof.
  destruct (rvth_write_BankEntry_read_only_file (E := Sample.errors)
              (T := Sample.clock) Sample.hdd 0 Sample.image_file
              Sample_errors_valid eq_refl eq_refl) as (_ & H & _).
  apply H; reflexivity.
Defined.

Lemma rvth_write_BankEntry_error_codes_witness :
  - ERANGE < 0 /\ ~ In (- ERANGE) (RvtH_Errors_codes Sample.errors).
Proof.
  assert (Herrno : 0 <= errno Sample.bad_device) by (vm_compute; discriminate).
  assert (Hne : - ERANGE <> 0) by discriminate.
  assert (Hb : bank_count Sample.hdd <= 8) by (vm_compute; discriminate).
  destruct (rvth_write_BankEntry_error_codes (E := Sample.errors)
              (T := Sample.clock) (Some Sample.hdd) 8 Sample.bad_device
              (set_errno ERANGE Sample.bad_device) (- ERANGE)
              Sample_errors_valid Herrno eq_refl Hne) as (_ & H).
  destruct (H Sample.hdd eq_refl eq_refl Hb) as (_ & Hneg & Hnot).
  split; [exact Hneg | exact Hnot].
Defined.

(* ================================================================== *)
(** * The plain reader's window *)

(** C8: a reader opened with [lba_start = 0] and [lba_len = 0] has the
    size of the whole backing store, not zero when the store is not
    empty, and its reads are the store's reads at the same offset, with no
    window check; a reader opened with any other pair has the size
    [lba_len * 512], refuses every read that ends past it and maps the
    others to the store at [lba_start * 512 + offset]. *)
Theorem reader_plain_open_window (file : RefFile) :
  Reader.size (Reader.reader_plain_open file 0 0) = ref_size file /\
  (0 < ref_size file -> Reader.size (Reader.reader_plain_open file 0 0) <> 0) /\
  (forall offset length,
     Reader.read_at (Reader.reader_plain_open file 0 0) offset length
       = Reader.store_read_at file offset length) /\
  (forall lba_start lba_len, (lba_start, lba_len) <> (0, 0) ->
     Reader.size (Reader.reader_plain_open file lba_start lba_len)
       = lba_len * 512 /\
     (forall offset length, lba_len * 512 < offset + length ->
        Reader.read_at (Reader.reader_plain_open file lba_start lba_len)
                       offset length = inl Reader.OutOfRange) /\
     (forall offset length, offset + length <= lba_len * 512 ->
        Reader.read_at (Reader.reader_plain_open file lba_start lba_len)
                       offset length
          = Reader.store_read_at file (lba_start * 512 + offset) length)).
Proof.
  split; [reflexivity|]. split; [cbn; lia|]. split; [reflexivity|].
  intros s l Hne.
  assert (Hb : Reader.unbounded (Reader.reader_plain_open file s l) = false).
  { unfold Reader.unbounded. cbn.
    destruct (Z.eqb_spec s 0) as [->|]; [|reflexivity].
    destruct (Z.eqb_spec l 0) as [->|]; [|reflexivity].
    contradiction Hne. reflexivity. }
  unfold Reader.size, Reader.read_at. rewrite Hb. cbn [negb andb].
  cbn [Reader.reader_plain_open Reader.lba_len Reader.lba_start Reader.file].
  split; [reflexivity|]. split; intros offset length H.
  - destruct (Z.leb_spec (offset + length) (l * 512)); [lia | reflexivity].
  - destruct (Z.leb_spec (offset + length) (l * 512)); [reflexivity | lia].
Qed.

Lemma reader_plain_open_window_witness :
  Reader.size (Reader.reader_plain_open (Sample.store false false) 0 0)
    = 0x7470C06000 /\
  Reader.read_at (Reader.reader_plain_open (Sample.store false false) 100 10)
                 5120 1 = inl Reader.OutOfRange /\
  Reader.read_at (Reader.reader_plain_open (Sample.store false false) 100 10)
                 5119 1 = inr [xff].
Proof.
  destruct (reader_plain_open_window (Sample.store false false))
    as (Hsize & _ & _ & Hwin).
  split; [exact Hsize|].
  destruct (Hwin 100 10) as (_ & Hout & Hin); [discriminate|].
  split; [apply Hout; lia|].
  rewrite Hin by lia. reflexivity.
Defined.

(* ================================================================== *)
(** * The scan: bytes past [size], and the host byte order *)

Lemma scan_groups_prefix (i : nat) (p extra : list byte) :
  length p = (64 * i)%nat ->
  BlockScan.scan_groups i (p ++ extra) = Some (forallb byte_is_zero p).
Proof.
  revert p. induction i as [|i IH]; intros p Hlen.
  - destruct p; [reflexivity | discriminate Hlen].
  - rewrite <- (firstn_skipn 64 p).
    set (c := firstn 64 p). set (rest := skipn 64 p).
    assert (Hc : length c = 64%nat) by (subst c; rewrite length_firstn; lia).
    assert (Hr : length rest = (64 * i)%nat)
      by (subst rest; rewrite length_skipn; lia).
    rewrite <- app_assoc.
    cbn [BlockScan.scan_groups].
    rewrite !load64_group by (assumption || lia).
    cbn [BlockScan.obind].
    rewrite skipn_app, Hc, Nat.sub_diag.
    rewrite (skipn_all2 (n:=64) c) by lia.
    change (skipn 0 (rest ++ extra)) with (rest ++ extra). rewrite app_nil_l.
    rewrite IH by exact Hr.
    rewrite !lor_eqb_0, !le_bytes_to_Z_eqb_0.
    rewrite <- !forallb_app, <- !app_assoc, <- (group_split c Hc).
    rewrite forallb_app.
    destruct (forallb byte_is_zero c); reflexivity.
Qed.

(** X1: with a buffer at least [size] bytes long, [size] a multiple of
    64, the scan returns whether the first [size] bytes are all zero; the
    bytes after them are not looked at. *)
Theorem rvth_is_block_empty_first_size_bytes (block : list byte) (size : Z) :
  0 <= size <= Z.of_nat (length block) -> size mod 64 = 0 ->
  rvth_is_block_empty block size
    = Some (forallb byte_is_zero (firstn (Z.to_nat size) block)) /\
  (forall tail, rvth_is_block_empty (firstn (Z.to_nat size) block ++ tail) size
                = rvth_is_block_empty block size).
Proof.
  intros Hsize Hmod.
  assert (Hq : Z.to_nat size = (64 * Z.to_nat (size / 8 / 8))%nat).
  { rewrite Z.div_div by lia. change (8 * 8) with 64.
    assert (H : size = 64 * (size / 64)) by (apply Z.div_exact; lia).
    lia. }
  assert (Hlen : length (firstn (Z.to_nat size) block)
                 = (64 * Z.to_nat (size / 8 / 8))%nat)
    by (rewrite length_firstn; lia).
  assert (Hgen : forall tail,
            rvth_is_block_empty (firstn (Z.to_nat size) block ++ tail) size
            = Some (forallb byte_is_zero (firstn (Z.to_nat size) block))).
  { intro tail. unfold rvth_is_block_empty. rewrite Hmod. cbn [Z.eqb].
    now apply scan_groups_prefix. }
  assert (Hmain : rvth_is_block_empty block size
                  = Some (forallb byte_is_zero (firstn (Z.to_nat size) block))).
  { rewrite <- (firstn_skipn (Z.to_nat size) block) at 1. apply Hgen. }
  split; [exact Hmain|]. intro tail. now rewrite Hgen, Hmain.
Qed.

Lemma rvth_is_block_empty_first_size_bytes_witness :
  rvth_is_block_empty (repeat x00 64 ++ [xff; x01]) 64 = Some true.
Proof.
  destruct (rvth_is_block_empty_first_size_bytes
              (repeat x00 64 ++ [xff; x01]) 64) as (H & _);
    [cbn; lia | reflexivity|].
  rewrite H. reflexivity.
Defined.

Lemma be_bytes_to_Z_eqb_0 (l : list byte) :
  (BlockScanBE.be_bytes_to_Z l =? 0) = forallb byte_is_zero l.
Proof.
  induction l as [|b t IH]; cbn [BlockScanBE.be_bytes_to_Z forallb];
    [reflexivity|].
  rewrite lor_eqb_0, IH. f_equal. unfold byte_is_zero.
  destruct (Z.eqb_spec (byte_to_Z b) 0) as [->|H].
  - now rewrite Z.shiftl_0_l.
  - apply Z.eqb_neq. rewrite Z.shiftl_eq_0_iff by lia. exact H.
Qed.

Lemma load64_be_group (c rest : list byte) (k : nat) :
  length c = 64%nat -> (k < 8)%nat ->
  BlockScanBE.load64 (c ++ rest) k
    = Some (BlockScanBE.be_bytes_to_Z (firstn 8 (skipn (8 * k) c))).
Proof.
  intros Hc Hk. unfold BlockScanBE.load64.
  rewrite skipn_app, firstn_app.
  rewrite length_skipn, Hc.
  replace (8 - (64 - 8 * k))%nat with 0%nat by lia.
  rewrite firstn_O, app_nil_r.
  rewrite length_firstn, length_skipn, Hc.
  replace (Nat.min 8 (64 - 8 * k)) with 8%nat by lia.
  reflexivity.
Qed.

Lemma scan_groups_be_spec (i : nat) (block : list byte) :
  length block = (64 * i)%nat ->
  BlockScanBE.scan_groups i block = Some (forallb byte_is_zero block).
Proof.
  revert block. induction i as [|i IH]; intros block Hlen.
  - destruct block; [reflexivity | discriminate Hlen].
  - rewrite <- (firstn_skipn 64 block).
    set (c := firstn 64 block). set (rest := skipn 64 block).
    assert (Hc : length c = 64%nat) by (subst c; rewrite length_firstn; lia).
    assert (Hr : length rest = (64 * i)%nat)
      by (subst rest; rewrite length_skipn; lia).
    cbn [BlockScanBE.scan_groups].
    rewrite !load64_be_group by (assumption || lia).
    cbn [BlockScan.obind].
    rewrite skipn_app, Hc, Nat.sub_diag.
    rewrite (skipn_all2 (n:=64) c) by lia.
    change (skipn 0 rest) with rest. rewrite app_nil_l.
    rewrite IH by exact Hr.
    rewrite !lor_eqb_0, !be_bytes_to_Z_eqb_0.
    rewrite <- !forallb_app, <- !app_assoc, <- (group_split c Hc).
    rewrite forallb_app.
    destruct (forallb byte_is_zero c); reflexivity.
Qed.

(** X2: the answer of the scan does not depend on the host byte order:
    on a buffer of [size] bytes, [size] a multiple of 64, reading the
    64-bit words most significant byte first gives the same result as
    reading them least significant byte first. *)
Theorem rvth_is_block_empty_any_byte_order (block : list byte) (size : Z) :
  size = Z.of_nat (length block) -> size mod 64 = 0 ->
  BlockScanBE.rvth_is_block_empty block size = rvth_is_block_empty block size.
Proof.
  intros Hsize Hmod.
  rewrite rvth_is_block_empty_forallb by assumption.
  unfold BlockScanBE.rvth_is_block_empty. rewrite Hmod. cbn [Z.eqb].
  apply scan_groups_be_spec.
  rewrite Z.div_div by lia. change (8 * 8) with 64.
  assert (H : size = 64 * (size / 64)) by (apply Z.div_exact; lia).
  lia.
Qed.

Lemma rvth_is_block_empty_any_byte_order_witness :
  BlockScanBE.rvth_is_block_empty (repeat x00 63 ++ [x01]) 64
  = rvth_is_block_empty (repeat x00 63 ++ [x01]) 64.
Proof.
  apply rvth_is_block_empty_any_byte_order; reflexivity.
Defined.

(* ================================================================== *)
(** * Big-endian fields read back *)

Lemma byte_to_of_Z (z : Z) : byte_to_Z (byte_of_Z z) = z mod 256.
Proof.
  unfold byte_to_Z, byte_of_Z.
  assert (Hm : 0 <= z mod 256 < 256) by (apply Z.mod_pos_bound; lia).
  destruct (Byte.of_N (Z.to_N (z mod 256))) as [b|] eqn:Hb.
  - apply Byte.to_of_N in Hb. rewrite Hb. lia.
  - apply Byte.of_N_None_iff in Hb. lia.
Qed.

Lemma be32_to_cpu_cpu_to_be32 (v : Z) :
  be32_to_cpu (cpu_to_be32 v) = v mod 4294967296.
Proof.
  unfold be32_to_cpu, cpu_to_be32. cbn [fold_left].
  rewrite !byte_to_of_Z, !Z.shiftr_div_pow2 by lia.
  change (2 ^ 24) with 16777216. change (2 ^ 16) with 65536.
  change (2 ^ 8) with 256.
  Z.to_euclidean_division_equations. lia.
Qed.

Lemma cpu_to_be32_magic :
  cpu_to_be32 NHCD_BankType_GCN = [x47; x43; x31; x4c] /\
  cpu_to_be32 NHCD_BankType_Wii_SL = [x4e; x4e; x31; x4c] /\
  cpu_to_be32 NHCD_BankType_Wii_DL = [x4e; x4e; x32; x4c].
Proof. repeat split. Qed.

Lemma char_array_exact (n : nat) (l : list byte) :
  length l = n -> char_array n l = l.
Proof.
  intro H. unfold char_array. rewrite firstn_app, H, Nat.sub_diag.
  rewrite firstn_O, app_nil_r. apply firstn_all2. lia.
Qed.

(* ================================================================== *)
(** * rvth_write_BankEntry: what is left alone, and what is reported *)

Lemma no_transfer_not_in (l : list io_event) (ev : io_event) :
  no_transfer l -> is_transfer ev = true -> ~ In ev l.
Proof.
  unfold no_transfer. intros H Hev Hin.
  rewrite forallb_forall in H. apply H in Hin. rewrite Hev in Hin.
  discriminate Hin.
Qed.

Section Frame.

Context {E : RvtH_Errors} {T : RvtH_Time}.

(** The runs of [rvth_write_BankEntry], sorted by how far they got:
    stopped before the seek, with every byte as before and no seek or
    write; or into the tail, from the world the gate left. *)
Lemma rvth_write_BankEntry_stages
    (rvth : option RvtH) (bank : Z) (w w' : World) (r : Z) :
  rvth_write_BankEntry rvth bank w = Some (r, w') ->
  (ref_data (f_img w') = ref_data (f_img w) /\
   no_transfer (new_events w w') /\
   (r = 0 -> In 0 (RvtH_Errors_codes E)))
  \/
  (exists h w1 e,
     rvth = Some h /\
     rvth_make_writable h w = Some (0, w1) /\
     nth_error (entries h) (Z.to_nat bank) = Some e /\
     rejection e = None /\
     skip_creating_bank_entry bank (record_of e (time_now w1)) w1
       = Some (r, w')).
Proof.
  destruct rvth as [h|].
  2:{ rewrite rvth_write_BankEntry_null. intro H. injection H as <- <-.
      left. split; [reflexivity|].
      rewrite (new_events_app w _ []) by reflexivity.
      split; [reflexivity | discriminate]. }
  intro H. apply rvth_write_BankEntry_inv in H.
  destruct H as [(_ & -> & ->) | [(_ & _ & -> & ->) | [(_ & _ & Hr & Hg) | H]]].
  - left. split; [reflexivity|].
    rewrite (new_events_app w _ []) by reflexivity.
    split; [reflexivity|]. intro Hr0. unfold RvtH_Errors_codes. cbn [In].
    auto 8.
  - left. split; [reflexivity|].
    rewrite (new_events_app w _ []) by reflexivity.
    split; [reflexivity | discriminate].
  - left. destruct (rvth_make_writable_events _ _ _ _ Hg) as (l & _ & -> & Hnt).
    split; [now apply (rvth_make_writable_frame _ _ _ _ Hg)|].
    split; [exact Hnt | contradiction].
  - destruct H as (_ & _ & w1 & e & Hg & He & [(Hrej & ->) | (Hrej & Hs)]).
    + left. destruct (rvth_make_writable_events _ _ _ _ Hg) as (l & _ & -> & Hnt).
      split; [now apply (rvth_make_writable_frame _ _ _ _ Hg)|].
      split; [exact Hnt|]. intros ->.
      unfold rejection in Hrej. unfold RvtH_Errors_codes. cbn [In].
      destruct (is_deleted e); [discriminate|].
      destruct (type e); try discriminate; injection Hrej as Hc; auto 8.
    + right. exists h, w1, e. repeat split; assumption.
Qed.

Lemma RvtH_Errors_codes_nonzero :
  RvtH_Errors_valid E -> ~ In 0 (RvtH_Errors_codes E).
Proof.
  intros (Hu & Hd & Hdev & Hhdd & _). unfold RvtH_Errors_codes. cbn [In]. lia.
Qed.

(** X3: once the gate has answered 0, asking again answers 0 with the
    writability query alone: no device query and no second escalation. *)
Theorem rvth_make_writable_again (rvth : RvtH) (w w1 : World) :
  RvtH_Errors_valid E ->
  rvth_make_writable rvth w = Some (0, w1) ->
  rvth_make_writable rvth w1 = Some (0, log_event EvIsWritable w1).
Proof.
  intros (_ & _ & Hdev & _) Hg.
  rewrite rvth_make_writable_run.
  rewrite (rvth_make_writable_ok rvth w w1); [reflexivity | lia | exact Hg].
Qed.

(** X4: whatever [rvth_write_BankEntry] returns, success or any failure,
    every byte of the store outside the 512 bytes at the offset it seeks
    to is as before. *)
Theorem rvth_write_BankEntry_touches_one_slot
    (rvth : option RvtH) (bank : Z) (w w' : World) (r : Z) :
  rvth_write_BankEntry rvth bank w = Some (r, w') ->
  forall o, ~ (seek_offset bank <= o < seek_offset bank + 512) ->
    ref_data (f_img w') o = ref_data (f_img w) o.
Proof.
  intros H o Ho. apply rvth_write_BankEntry_stages in H.
  destruct H as [(Hd & _) | (h & w1 & e & _ & Hg & _ & _ & Hs)].
  - now rewrite Hd.
  - pose proof (rvth_make_writable_frame _ _ _ _ Hg) as (Hd1 & _).
    apply skip_creating_bank_entry_inv in Hs.
    destruct Hs as [(_ & _ & _ & _ & _ & Hf) | (_ & n & Hn & _ & Hd & _)].
    + now rewrite Hf, Hd1.
    + rewrite Hd, <- Hd1. apply written_bytes_outside.
      rewrite length_firstn. lia.
Qed.

(** X5: on a table of at most RVTH_BANK_COUNT banks, whatever the call
    returns, the bytes it changes lie after the table header and before
    RVTH_BANK_1_START: the header and the banks' data are never
    touched. *)
Theorem rvth_write_BankEntry_stays_in_table
    (rvth : RvtH) (bank : Z) (w w' : World) (r : Z) :
  0 <= bank -> bank_count rvth <= RVTH_BANK_COUNT ->
  rvth_write_BankEntry (Some rvth) bank w = Some (r, w') ->
  forall o, o < RVTH_BANKTABLE_ADDRESS + 512 \/ RVTH_BANK_1_START <= o ->
    ref_data (f_img w') o = ref_data (f_img w) o.
Proof.
  intros Hb0 Hcount H o Ho.
  destruct (Z.le_gt_cases (bank_count rvth) bank) as [Hb|Hb].
  - pose proof H as H'. apply rvth_write_BankEntry_inv in H'.
    destruct H' as [(_ & _ & ->) | [(_ & _ & _ & ->) | [(_ & Hlt & _) | (_ & Hlt & _)]]];
      try reflexivity; lia.
  - apply (rvth_write_BankEntry_touches_one_slot _ _ _ _ _ H).
    unfold RVTH_BANK_COUNT in Hcount.
    rewrite seek_offset_slot
      by (unfold NHCD_BANKTABLE_ADDRESS_LBA, RVTH_BANKTABLE_ADDRESS,
            RVTH_BLOCK_SIZE, UINT32_MAX;
          change (1610612736 / 512) with 3145728; lia).
    unfold NHCD_BANKTABLE_ADDRESS_LBA, RVTH_BANKTABLE_ADDRESS, RVTH_BLOCK_SIZE,
      RVTH_BANK_1_START in *.
    change (1610612736 / 512) with 3145728. lia.
Qed.

(** X6: when the store's seek fails, the call does not succeed, hands
    nothing to the store to write, and leaves every byte as it was. *)
Theorem rvth_write_BankEntry_seek_failure
    (rvth : option RvtH) (bank : Z) (w w' : World) (r : Z) :
  RvtH_Errors_valid E ->
  seek_error (platform w) <> None ->
  rvth_write_BankEntry rvth bank w = Some (r, w') ->
  r <> 0 /\
  written_buffers (new_events w w') = [] /\
  ref_data (f_img w') = ref_data (f_img w).
Proof.
  intros Hv Hse H. apply rvth_write_BankEntry_stages in H.
  destruct H as [(Hd & Hnt & Hr) | (h & w1 & e & _ & Hg & _ & _ & Hs)].
  - split; [|split; [now apply no_transfer_written_buffers | exact Hd]].
    intro Hr0. apply (RvtH_Errors_codes_nonzero Hv). exact (Hr Hr0).
  - pose proof (rvth_make_writable_frame _ _ _ _ Hg)
      as (Hd1 & _ & _ & _ & Hplat & _).
    destruct (rvth_make_writable_events _ _ _ _ Hg) as (l & Hl & _ & Hnt).
    apply skip_creating_bank_entry_inv in Hs.
    destruct Hs as [(_ & _ & Hr & _ & Hlog & Hf) | (Hnone & _)].
    + split; [exact Hr|]. split.
      * rewrite (new_events_app w w' (EvSeek (seek_offset bank) :: l))
          by now rewrite Hlog, Hl.
        cbn [written_buffers]. now apply no_transfer_written_buffers.
      * now rewrite Hf, Hd1.
    + rewrite Hplat in Hnone. contradiction.
Qed.

(** X7: a call that got as far as the seek and fails returns minus the
    errno it leaves, which is not 0; when errno was 0 before the call and
    the failing store call stores none, that is -EIO. *)
Theorem rvth_write_BankEntry_io_error_is_errno
    (rvth : option RvtH) (bank : Z) (w w' : World) (r : Z) :
  rvth_write_BankEntry rvth bank w = Some (r, w') ->
  In (EvSeek (seek_offset bank)) (new_events w w') -> r <> 0 ->
  r = - errno w' /\ errno w' <> 0 /\
  (errno w = 0 -> seek_error (platform w) = Some None -> r = - EIO) /\
  (errno w = 0 -> seek_error (platform w) = None ->
     write_error (platform w) = None -> r = - EIO).
Proof.
  intros H Hin Hr. apply rvth_write_BankEntry_stages in H.
  destruct H as [(_ & Hnt & _) | (h & w1 & e & _ & Hg & _ & _ & Hs)].
  { exfalso.
    exact (no_transfer_not_in _ (EvSeek (seek_offset bank)) Hnt eq_refl Hin). }
  pose proof (rvth_make_writable_frame _ _ _ _ Hg)
    as (_ & _ & Herrno & _ & Hplat & _).
  clear Hin. revert Hs.
  unfold skip_creating_bank_entry, bind, ref_seeko. rewrite Hplat.
  destruct (seek_error (platform w)) as [se|] eqn:Hse; cbn [negb Z.eqb].
  - intro H. apply return_errno_value in H. destruct H as (Hre & He).
    cbn [errno log_event] in He.
    assert (He' : errno w = 0 -> se = None -> errno w' = EIO).
    { intros H0 ->. cbn [store_errno] in He. now rewrite Herrno, H0 in He. }
    split; [exact Hre|]. split; [lia|]. split.
    + intros H0 Hs. injection Hs as ->. rewrite Hre, He'; auto.
    + intros _ Hs. discriminate Hs.
  - unfold ref_write.
    match goal with |- context [negb (?n =? sizeof_NHCD_BankEntry)] =>
      set (k := n); destruct (Z.eqb_spec k sizeof_NHCD_BankEntry) as [Hk|Hk]
    end; cbn [negb].
    + unfold ret. intro H. assert (r = 0) by congruence. contradiction.
    + unfold sizeof_NHCD_BankEntry in *.
      assert (Hlt : (k <? 512) = true).
      { apply Z.ltb_lt. subst k.
        destruct (ref_writable _); lia. }
      rewrite Hlt. intro H. apply return_errno_value in H.
      destruct H as (Hre & He).
      cbn [platform log_event set_f_img] in He. rewrite Hplat in He.
      assert (He' : errno w = 0 -> write_error (platform w) = None ->
                    errno w' = EIO).
      { intros H0 Hwe. rewrite Hwe in He. cbn [store_errno errno log_event
          set_f_img] in He. now rewrite Herrno, H0 in He. }
      split; [exact Hre|]. split; [lia|]. split.
      * intros _ Hs. discriminate Hs.
      * intros H0 _ Hwe. rewrite Hre, He'; auto.
Qed.

End Frame.

Section Layout.

Context {E : RvtH_Errors} {T : RvtH_Time}.

Lemma filled_entry_bytes (magic : Z) (e : RvtH_BankEntry) (now : Z) :
  NHCD_BankEntry_bytes (filled_entry magic e now)
  = (cpu_to_be32 magic ++ repeat x30 14
       ++ char_array 14 (rvth_timestamp_create now))
    ++ cpu_to_be32 (lba_start e)
    ++ cpu_to_be32 (lba_len e)
    ++ repeat x00 472.
Proof.
  unfold NHCD_BankEntry_bytes, filled_entry.
  cbn [nhcd_type nhcd_all_zero nhcd_timestamp nhcd_lba_start nhcd_lba_len
       nhcd_unk].
  rewrite (char_array_exact 14 (repeat x30 14)) by apply repeat_length.
  rewrite (char_array_exact 472 (repeat x00 472)) by apply repeat_length.
  now rewrite <- !app_assoc.
Qed.

(** X8: for an entry that is not deleted, of type GCN, Wii_SL or Wii_DL,
    a call that returns 0 leaves in the slot: the magic "GC1L", "NN1L" or
    "NN2L"; fourteen ASCII zeroes; the 14-byte timestamp of the current
    time (not the entry's own); [lba_start] and [lba_len], which read back
    big-endian as the entry's values modulo 2^32; and 472 zero bytes. *)
Theorem rvth_write_BankEntry_record_layout
    (rvth : RvtH) (bank : Z) (e : RvtH_BankEntry) (w w1 w' : World) :
  rvth_is_hdd rvth = true -> bank < bank_count rvth ->
  nth_error (entries rvth) (Z.to_nat bank) = Some e ->
  is_deleted e = false ->
  rvth_make_writable rvth w = Some (0, w1) ->
  rvth_write_BankEntry (Some rvth) bank w = Some (0, w') ->
  let slot := bytes_at (f_img w') (seek_offset bank) 512 in
  let layout (magic : list byte) :=
    (magic ++ repeat x30 14
       ++ char_array 14 (rvth_timestamp_create (time_now w)))
    ++ cpu_to_be32 (lba_start e) ++ cpu_to_be32 (lba_len e)
    ++ repeat x00 472 in
  (type e = RVTH_BankType_GCN -> slot = layout [x47; x43; x31; x4c]) /\
  (type e = RVTH_BankType_Wii_SL -> slot = layout [x4e; x4e; x31; x4c]) /\
  (type e = RVTH_BankType_Wii_DL -> slot = layout [x4e; x4e; x32; x4c]) /\
  (In (type e) [RVTH_BankType_GCN; RVTH_BankType_Wii_SL;
                RVTH_BankType_Wii_DL] ->
     be32_to_cpu (firstn 4 (skipn 32 slot)) = lba_start e mod 4294967296 /\
     be32_to_cpu (firstn 4 (skipn 36 slot)) = lba_len e mod 4294967296).
Proof.
  intros Hh Hb He Hdel Hg Hrun slot layout.
  pose proof (rvth_make_writable_frame _ _ _ _ Hg)
    as (_ & _ & _ & Htime & _).
  assert (Hslot : forall magic,
            record_of e (time_now w1) = filled_entry magic e (time_now w1) ->
            slot = layout (cpu_to_be32 magic)).
  { intros magic Hrec.
    rewrite rvth_write_BankEntry_gate, Hg, He in Hrun by assumption.
    cbn [Z.eqb] in Hrun.
    destruct (rejection e) as [code|] eqn:Hrej.
    { exfalso. revert Hrec Hrej. unfold record_of, rejection, filled_entry.
      rewrite Hdel.
      destruct (type e); intros Hrec Hrej; try discriminate Hrej;
        apply (f_equal nhcd_all_zero) in Hrec; discriminate Hrec. }
    rewrite Hrec in Hrun.
    destruct (gate_then_write rvth bank _ w w1 w' 0 Hg Hrun) as (_ & _ & _ & Hok).
    destruct (Hok eq_refl) as (_ & _ & Hbytes & _).
    subst slot layout. rewrite Hbytes, filled_entry_bytes, Htime.
    reflexivity. }
  assert (Hlen : forall magic : list byte, length magic = 4%nat ->
            length (magic ++ repeat x30 14
                      ++ char_array 14 (rvth_timestamp_create (time_now w)))
            = 32%nat).
  { intros magic Hm. rewrite !length_app, Hm, repeat_length, char_array_length.
    reflexivity. }
  assert (Hlba : forall magic : list byte, length magic = 4%nat ->
            slot = layout magic ->
            be32_to_cpu (firstn 4 (skipn 32 slot)) = lba_start e mod 4294967296 /\
            be32_to_cpu (firstn 4 (skipn 36 slot)) = lba_len e mod 4294967296).
  { intros magic Hm ->. subst layout. cbv beta.
    split.
    - rewrite skipn_app, (skipn_all2 (n := 32)) by (rewrite Hlen; auto).
      rewrite Hlen by exact Hm. cbn [Nat.sub skipn app firstn cpu_to_be32].
      apply be32_to_cpu_cpu_to_be32.
    - rewrite skipn_app, (skipn_all2 (n := 36)) by (rewrite Hlen; auto).
      rewrite Hlen by exact Hm. cbn [Nat.sub skipn app firstn cpu_to_be32].
      apply be32_to_cpu_cpu_to_be32. }
  assert (Hgcn : type e = RVTH_BankType_GCN -> slot = layout [x47; x43; x31; x4c]).
  { intro Ht. apply (Hslot NHCD_BankType_GCN).
    unfold record_of. now rewrite Hdel, Ht. }
  assert (Hsl : type e = RVTH_BankType_Wii_SL ->
                slot = layout [x4e; x4e; x31; x4c]).
  { intro Ht. apply (Hslot NHCD_BankType_Wii_SL).
    unfold record_of. now rewrite Hdel, Ht. }
  assert (Hdl : type e = RVTH_BankType_Wii_DL ->
                slot = layout [x4e; x4e; x32; x4c]).
  { intro Ht. apply (Hslot NHCD_BankType_Wii_DL).
    unfold record_of. now rewrite Hdel, Ht. }
  split; [exact Hgcn|]. split; [exact Hsl|]. split; [exact Hdl|].
  intros [Ht | [Ht | [Ht | []]]]; symmetry in Ht.
  - exact (Hlba [x47; x43; x31; x4c] eq_refl (Hgcn Ht)).
  - exact (Hlba [x4e; x4e; x31; x4c] eq_refl (Hsl Ht)).
  - exact (Hlba [x4e; x4e; x32; x4c] eq_refl (Hdl Ht)).
Qed.

(** X9: when the handle's [entries] array has [bank_count] elements, the
    call never indexes it out of bounds: for every bank number and every
    state of the store it returns a result. *)
Theorem rvth_write_BankEntry_in_bounds
    (rvth : RvtH) (bank : Z) (w : World) :
  entries_allocated rvth -> 0 <= bank ->
  exists r w', rvth_write_BankEntry (Some rvth) bank w = Some (r, w').
Proof.
  intros Hwf Hb0. unfold entries_allocated in Hwf.
  destruct (rvth_is_hdd rvth) eqn:Hh.
  2:{ rewrite rvth_write_BankEntry_not_hdd by exact Hh. eauto. }
  destruct (Z.le_gt_cases (bank_count rvth) bank) as [Hb|Hb].
  { rewrite rvth_write_BankEntry_range by assumption. eauto. }
  rewrite rvth_write_BankEntry_gate by (assumption || lia).
  destruct (rvth_make_writable_total rvth w) as (r1 & w1 & ->).
  destruct (r1 =? 0); [|eauto].
  destruct (nth_error (entries rvth) (Z.to_nat bank)) as [e|] eqn:He.
  - destruct (rejection e); [eauto|]. apply skip_creating_bank_entry_total.
  - apply nth_error_None in He. lia.
Qed.

End Layout.

Lemma rvth_make_writable_again_witness :
  rvth_make_writable (E := Sample.errors) Sample.hdd
    (Sample.final (rvth_make_writable (E := Sample.errors) Sample.hdd)
                  Sample.locked_device)
  = Some (0, log_event EvIsWritable
               (Sample.final (rvth_make_writable (E := Sample.errors)
                                Sample.hdd) Sample.locked_device)).
Proof.
  apply (rvth_make_writable_again (E := Sample.errors) Sample.hdd
           Sample.locked_device _ Sample_errors_valid).
  apply Sample_final_run. vm_compute. reflexivity.
Defined.

Lemma rvth_write_BankEntry_touches_one_slot_witness :
  ref_data
    (f_img (Sample.final
              (rvth_write_BankEntry (E := Sample.errors) (T := Sample.clock)
                 (Some Sample.hdd) 0) Sample.locked_device)) 0
  = ref_data (f_img Sample.locked_device) 0.
Proof.
  assert (Hrun : rvth_write_BankEntry (E := Sample.errors) (T := Sample.clock)
                   (Some Sample.hdd) 0 Sample.locked_device
                 = Some (0, Sample.final
                              (rvth_write_BankEntry (E := Sample.errors)
                                 (T := Sample.clock) (Some Sample.hdd) 0)
                              Sample.locked_device))
    by (apply Sample_final_run; vm_compute; reflexivity).
  apply (rvth_write_BankEntry_touches_one_slot _ _ _ _ _ Hrun).
  vm_compute. intros [H _]. apply H. reflexivity.
Defined.

Lemma rvth_write_BankEntry_stays_in_table_witness :
  ref_data
    (f_img (Sample.final
              (rvth_write_BankEntry (E := Sample.errors) (T := Sample.clock)
                 (Some Sample.hdd) 7) Sample.locked_device))
    RVTH_BANK_1_START
  = ref_data (f_img Sample.locked_device) RVTH_BANK_1_START.
Proof.
  assert (Hrun : rvth_write_BankEntry (E := Sample.errors) (T := Sample.clock)
                   (Some Sample.hdd) 7 Sample.locked_device
                 = Some (0, Sample.final
                              (rvth_write_BankEntry (E := Sample.errors)
                                 (T := Sample.clock) (Some Sample.hdd) 7)
                              Sample.locked_device))
    by (apply Sample_final_run; vm_compute; reflexivity).
  assert (H7 : 0 <= 7) by lia.
  assert (Hc : bank_count Sample.hdd <= RVTH_BANK_COUNT)
    by (vm_compute; discriminate).
  apply (rvth_write_BankEntry_stays_in_table _ _ _ _ _ H7 Hc Hrun).
  right. apply Z.le_refl.
Defined.

Lemma rvth_write_BankEntry_seek_failure_witness :
  written_buffers
    (new_events Sample.bad_device
       (Sample.final
          (rvth_write_BankEntry (E := Sample.errors) (T := Sample.clock)
             (Some Sample.hdd) 0) Sample.bad_device)) = [].
Proof.
  assert (Hrun : rvth_write_BankEntry (E := Sample.errors) (T := Sample.clock)
                   (Some Sample.hdd) 0 Sample.bad_device
                 = Some (- EIO, Sample.final
                              (rvth_write_BankEntry (E := Sample.errors)
                                 (T := Sample.clock) (Some Sample.hdd) 0)
                              Sample.bad_device))
    by (apply Sample_final_run; vm_compute; reflexivity).
  assert (Hse : seek_error (platform Sample.bad_device) <> None)
    by discriminate.
  apply (rvth_write_BankEntry_seek_failure _ _ _ _ _ Sample_errors_valid
           Hse Hrun).
Defined.

Lemma rvth_write_BankEntry_io_error_is_errno_witness :
  errno (Sample.final
           (rvth_write_BankEntry (E := Sample.errors) (T := Sample.clock)
              (Some Sample.hdd) 0) Sample.bad_device) <> 0.
Proof.
  assert (Hrun : rvth_write_BankEntry (E := Sample.errors) (T := Sample.clock)
                   (Some Sample.hdd) 0 Sample.bad_device
                 = Some (- EIO, Sample.final
                              (rvth_write_BankEntry (E := Sample.errors)
                                 (T := Sample.clock) (Some Sample.hdd) 0)
                              Sample.bad_device))
    by (apply Sample_final_run; vm_compute; reflexivity).
  assert (Hin : In (EvSeek (seek_offset 0))
                   (new_events Sample.bad_device
                      (Sample.final
                         (rvth_write_BankEntry (E := Sample.errors)
                            (T := Sample.clock) (Some Sample.hdd) 0)
                         Sample.bad_device)))
    by (vm_compute; left; reflexivity).
  assert (Hne : - EIO <> 0) by discriminate.
  apply (rvth_write_BankEntry_io_error_is_errno _ _ _ _ _ Hrun Hin Hne).
Defined.

Lemma rvth_write_BankEntry_record_layout_witness :
  be32_to_cpu
    (firstn 4 (skipn 32
       (bytes_at
          (f_img (Sample.final
                    (rvth_write_BankEntry (E := Sample.errors)
                       (T := Sample.clock) (Some Sample.hdd) 0)
                    Sample.open_device))
          (seek_offset 0) 512)))
  = 0x300009 mod 4294967296.
Proof.
  assert (Hrun : rvth_write_BankEntry (E := Sample.errors) (T := Sample.clock)
                   (Some Sample.hdd) 0 Sample.open_device
                 = Some (0, Sample.final
                              (rvth_write_BankEntry (E := Sample.errors)
                                 (T := Sample.clock) (Some Sample.hdd) 0)
                              Sample.open_device))
    by (apply Sample_final_run; vm_compute; reflexivity).
  destruct (rvth_write_BankEntry_record_layout (E := Sample.errors)
              (T := Sample.clock) Sample.hdd 0 Sample.gcn_bank
              Sample.open_device (log_event EvIsWritable Sample.open_device)
              _ eq_refl eq_refl eq_refl eq_refl eq_refl Hrun)
    as (_ & _ & _ & H).
  destruct H as (Hstart & _); [left; reflexivity|]. exact Hstart.
Defined.

Lemma rvth_write_BankEntry_in_bounds_witness :
  exists r w',
    rvth_write_BankEntry (E := Sample.errors) (T := Sample.clock)
      (Some Sample.hdd) 9 Sample.open_device = Some (r, w').
Proof.
  apply rvth_write_BankEntry_in_bounds; [reflexivity | lia].
Defined.


(* ================================================================== *)
(** * rvth_query_devices *)

Module QueryFacts.

Import Query.
Import Stdlib.Strings.String.StringSyntax.
#[local] Delimit Scope string_scope with string.

Lemma nth_error_update_nth {A} (l : list A) (a : nat) (f : A -> A) (x : A) :
  nth_error l a = Some x -> nth_error (update_nth a f l) a = Some (f x).
Proof.
  revert a. induction l as [|y l IH]; intros [|a] H; try discriminate H.
  - injection H as ->. reflexivity.
  - cbn [update_nth nth_error] in *. now apply IH.
Qed.

Lemma update_nth_length {A} (l : list A) (a : nat) (f : A -> A) :
  length (update_nth a f l) = length l.
Proof.
  revert a. induction l as [|y l IH]; intros [|a]; cbn [update_nth length];
    try reflexivity.
  now rewrite IH.
Qed.

Lemma write_node_live (a : nat) (n : RvtH_QueryEntry)
    (f : RvtH_QueryEntry -> RvtH_QueryEntry) (st : State) :
  nth_error (heap st) a = Some (Some n) ->
  write_node (Some a) f st
    = Some (set_heap (update_nth a (option_map f) (heap st)) st) /\
  nth_error (update_nth a (option_map f) (heap st)) a = Some (Some (f n)).
Proof.
  intro H. unfold write_node. rewrite H. split; [reflexivity|].
  now rewrite (nth_error_update_nth _ _ _ _ H).
Qed.

Lemma remove_handle_head (h : Z) (l : list Z) : remove_handle h (h :: l) = l.
Proof. cbn [remove_handle]. now rewrite Z.eqb_refl. Qed.

Section Loop.

Context {C : CRT}.
Variable pErr : bool.
Variable D : DevInfo -> Prop.

(** Between the creation of the entry and the end of the turn. *)
Lemma fill_entry_inv (d : DevInfo) (hw_serial hDevice : Z) (bRet : bool)
    (DeviceNumber : Z) (st : State) (a : nat) (n : RvtH_QueryEntry) :
  D d ->
  10000000 <= hw_serial <= 29999999 ->
  list_head st = Some a -> list_tail st = Some a ->
  nth_error (heap st) a = Some (Some n) -> next n = Val None ->
  open_handles st = [hDevice] -> pErr_value st = None ->
  ~ In EvDestroyDeviceInfoList (api_log st) ->
  exists st',
    fill_entry d hw_serial hDevice bRet DeviceNumber st = Some (Continue st') /\
    loop_inv D st'.
Proof.
  intros HD Hs Hhead Htail Hn Hnext Hopen Hperr Hlog.
  unfold fill_entry.
  destruct (reg_mfg d) as [ulRegDataType tcs].
  destruct (ioctl_query_property d) as [bRet1 psdp].
  destruct (ioctl_length_info d) as [[bRet2 cb] Length].
  rewrite Htail.
  match goal with |- context [write_node (Some a) ?f st] =>
    destruct (write_node_live a n f st Hn) as (Hw & Hn'); rewrite Hw
  end.
  eexists. split; [reflexivity|].
  unfold loop_inv. cbn [CloseHandle open_handles list_tail list_head
    pErr_value api_log set_heap heap].
  rewrite Hopen, remove_handle_head, Htail, Hhead.
  split; [reflexivity|]. split; [reflexivity|]. split; [exact Hperr|].
  split.
  { intros [H|H]; [discriminate H | exact (Hlog H)]. }
  eexists. exists d. split; [exact Hn'|]. split; [exact HD|].
  unfold filled. cbn [next usb_product usb_serial device_name usb_vendor size].
  split; [exact Hnext|]. split; [reflexivity|].
  split.
  { exists hw_serial. split; [exact Hs|]. reflexivity. }
  split; [eexists; reflexivity|].
  split; eexists; reflexivity.
Qed.

Definition exit_inv (ex : loop_exit) : Prop :=
  match ex with
  | Continue st' => loop_inv D st'
  | Break st' => break_inv pErr st'
  end.

Lemma create_entry_inv (d : DevInfo) (hw_serial hDevice : Z) (bRet : bool)
    (DeviceNumber : Z) (st : State) :
  D d ->
  10000000 <= hw_serial <= 29999999 ->
  open_handles st = [hDevice] -> list_tail st = list_head st ->
  pErr_value st = None -> ~ In EvDestroyDeviceInfoList (api_log st) ->
  match list_head st with
  | None => True
  | Some a =>
    exists n d0, nth_error (heap st) a = Some (Some n) /\ D d0 /\ filled d0 n
  end ->
  exists ex,
    create_entry d hw_serial hDevice bRet DeviceNumber st = Some ex /\
    exit_inv ex /\
    (forall st', ex = Break st' -> malloc_ok d = false).
Proof.
  intros HD Hs Hopen Htail Hperr Hlog Hhead.
  unfold create_entry, malloc.
  destruct (list_head st) as [a|] eqn:Hh.
  - destruct Hhead as (n & d0 & Hn & _ & Hfilled).
    assert (Ha : (a < length (heap st))%nat)
      by (apply nth_error_Some; rewrite Hn; discriminate).
    destruct (malloc_ok d) eqn:Hm.
    + set (st1 := set_heap (heap st ++ [Some fresh_entry])%list st).
      assert (Hn1 : nth_error (heap st1) a = Some (Some n))
        by (cbn [st1 set_heap heap]; now rewrite nth_error_app1).
      assert (Ht1 : list_tail st1 = Some a) by exact Htail.
      rewrite Ht1.
      match goal with |- context [write_node (Some a) ?f st1] =>
        destruct (write_node_live a n f st1 Hn1) as (Hw & Hn2); rewrite Hw
      end.
      match goal with |- context [write_node ?p ?f ?s] =>
        replace p with (Some a) by (symmetry; exact Htail);
        destruct (write_node_live a _ f s Hn2) as (Hw3 & Hn3); rewrite Hw3
      end.
      match goal with |- context [fill_entry _ _ _ _ _ ?s] =>
        destruct (fill_entry_inv d hw_serial hDevice bRet DeviceNumber s a _
                    HD Hs Hh Htail Hn3 eq_refl Hopen Hperr Hlog)
          as (st' & Hfill & Hinv)
      end.
      exists (Continue st'). split; [exact Hfill|].
      split; [exact Hinv | discriminate].
    + rewrite Htail.
      match goal with |- context [write_node (Some a) ?f st] =>
        destruct (write_node_live a n f st Hn) as (Hw & _); rewrite Hw
      end.
      eexists. split; [reflexivity|]. split; [|reflexivity].
      unfold exit_inv, break_inv.
      cbn [set_list rvth_query_free CloseHandle set_heap open_handles
           list_head pErr_value api_log heap].
      rewrite Hopen, remove_handle_head.
      split; [reflexivity|]. split; [reflexivity|].
      split; [|now left].
      intros [H|H]; [discriminate H | exact (Hlog H)].
  - destruct (malloc_ok d) eqn:Hm.
    + cbv beta iota zeta.
      match goal with |- context [write_node ?p ?f ?s] =>
        assert (Hn2 : nth_error (heap s) (length (heap st))
                      = Some (Some fresh_entry))
          by (cbn [set_list set_heap heap];
              now rewrite nth_error_app2, Nat.sub_diag by lia);
        change p with (Some (length (heap st)));
        destruct (write_node_live _ _ f s Hn2) as (Hw & Hn3); rewrite Hw
      end.
      match goal with |- context [fill_entry _ _ _ _ _ ?s] =>
        destruct (fill_entry_inv d hw_serial hDevice bRet DeviceNumber s _ _
                    HD Hs eq_refl eq_refl Hn3 eq_refl Hopen Hperr Hlog)
          as (st' & Hfill & Hinv)
      end.
      exists (Continue st'). split; [exact Hfill|].
      split; [exact Hinv | discriminate].
    + eexists. split; [reflexivity|]. split; [|reflexivity].
      unfold exit_inv, break_inv.
      cbn [set_list CloseHandle open_handles list_head pErr_value api_log].
      rewrite Hopen, remove_handle_head.
      split; [reflexivity|]. split; [reflexivity|].
      split; [|now left].
      intros [H|H]; [discriminate H | exact (Hlog H)].
Qed.

Lemma loop_body_inv (d : DevInfo) (st : State) :
  D d -> loop_inv D st ->
  exists ex, loop_body pErr d st = Some ex /\ exit_inv ex /\
    (forall st', ex = Break st' ->
       (malloc_ok d = false /\ pErr_value st' = None) \/
       (access_denied d = true /\
        pErr_value st' = if pErr then Some EACCES else None)) /\
    (access_denied d = true ->
       exists st', ex = Break st' /\
                   pErr_value st' = if pErr then Some EACCES else None).
Proof.
  intros HD Hinv. pose proof Hinv as (Hopen & Htail & Hperr & Hlog & Hhead).
  assert (Hskip : forall (P : State -> Prop) (Q : loop_exit -> Prop),
            exists ex, Some (Continue st) = Some ex /\ exit_inv ex /\
                       (forall st', ex = Break st' -> P st') /\
                       (false = true -> Q ex)).
  { intros P Q. exists (Continue st).
    split; [reflexivity|]. split; [exact Hinv|]. split; discriminate. }
  unfold loop_body, access_denied.
  destruct (negb (cm_get_parent d =? CR_SUCCESS)); [apply Hskip|].
  destruct (cm_usb_instance_id d) as [ret s_usbInstanceID].
  destruct (negb (ret =? CR_SUCCESS)); [apply Hskip|].
  destruct (stscanf_usb_id (map_chars totupper s_usbInstanceID))
    as [[[ret1 vid] pid] hw_serial].
  destruct (negb (ret1 =? 3)); [apply Hskip|].
  destruct (negb (vid =? RVTH_READER_VID) || negb (pid =? RVTH_READER_PID));
    [apply Hskip|].
  destruct ((hw_serial <? 10000000) || (29999999 <? hw_serial)) eqn:Hser;
    [apply Hskip|].
  assert (Hs : 10000000 <= hw_serial <= 29999999).
  { apply orb_false_elim in Hser. destruct Hser as (H1 & H2).
    apply Z.ltb_ge in H1, H2. lia. }
  destruct (cm_disk_instance_id d) as [ret2 s_diskInstanceID].
  destruct (negb (ret2 =? CR_SUCCESS)); [apply Hskip|].
  set (path := sntprintf MAX_PATH _).
  assert (Hlog1 : ~ In EvDestroyDeviceInfoList
                      (api_log (CreateFile path (create_file d) st))).
  { cbn [CreateFile api_log]. intros [H|H]; [discriminate H | exact (Hlog H)]. }
  destruct ((create_file d =? 0) || (create_file d =? INVALID_HANDLE_VALUE))
    eqn:Hh.
  - assert (Hopen1 : open_handles (CreateFile path (create_file d) st) = [])
      by (cbn [CreateFile open_handles]; now rewrite Hh).
    destruct (last_error d =? ERROR_ACCESS_DENIED).
    + assert (Hpv : pErr_value (store_pErr pErr EACCES
                                  (CreateFile path (create_file d) st))
                    = if pErr then Some EACCES else None)
        by (unfold store_pErr; destruct pErr; [reflexivity | exact Hperr]).
      assert (Hp : pErr_value (store_pErr pErr EACCES
                                 (CreateFile path (create_file d) st)) = None \/
                   (pErr = true /\
                    pErr_value (store_pErr pErr EACCES
                                  (CreateFile path (create_file d) st))
                    = Some EACCES))
        by (rewrite Hpv; destruct pErr; [right | left]; auto).
      assert (Hsame : forall s : State,
                open_handles (store_pErr pErr EACCES s) = open_handles s /\
                api_log (store_pErr pErr EACCES s) = api_log s)
        by (intro s; unfold store_pErr; destruct pErr; repeat split).
      destruct (Hsame (CreateFile path (create_file d) st)) as (Ho & Hl).
      destruct (list_head (store_pErr pErr EACCES
                             (CreateFile path (create_file d) st))) eqn:Hlh;
        eexists; (split; [reflexivity|]);
        (split;
         [ unfold exit_inv, break_inv;
           cbn [set_list rvth_query_free set_heap open_handles list_head
                pErr_value api_log];
           rewrite Ho, Hl, Hopen1;
           (split; [reflexivity|]); (split; [reflexivity || exact Hlh|]);
           (split; [exact Hlog1 | exact Hp])
         | split;
           [ intros st' Hst'; injection Hst' as <-; right;
             split; [reflexivity | exact Hpv]
           | intros _; eexists; split; [reflexivity | exact Hpv] ] ]).
    + exists (Continue (CreateFile path (create_file d) st)).
      split; [reflexivity|]. split; [|split; discriminate].
      unfold exit_inv, loop_inv.
      split; [exact Hopen1|]. split; [exact Htail|]. split; [exact Hperr|].
      split; [exact Hlog1 | exact Hhead].
  - assert (Hopen1 : open_handles (CreateFile path (create_file d) st)
                     = [create_file d])
      by (cbn [CreateFile open_handles]; now rewrite Hh, Hopen).
    destruct (ioctl_device_number d)
      as [[[bRet cbBytesReturned] DeviceType] DeviceNumber].
    destruct (negb bRet
              || negb (cbBytesReturned =? sizeof_STORAGE_DEVICE_NUMBER)
              || negb (DeviceType =? FILE_DEVICE_DISK)).
    + eexists. split; [reflexivity|]. split; [|split; discriminate].
      unfold exit_inv, loop_inv.
      cbn [CloseHandle open_handles list_tail list_head pErr_value api_log
           heap].
      rewrite Hopen1, remove_handle_head.
      split; [reflexivity|]. split; [exact Htail|]. split; [exact Hperr|].
      split; [|exact Hhead].
      intros [H|H]; [discriminate H | exact (Hlog1 H)].
    + destruct (create_entry_inv d hw_serial (create_file d) bRet DeviceNumber
                  (CreateFile path (create_file d) st) HD Hs Hopen1 Htail Hperr
                  Hlog1 Hhead) as (ex & Hce & Hex & Hbr).
      exists ex. split; [exact Hce|]. split; [exact Hex|].
      split; [|discriminate].
      intros st' ->. left. split; [now apply (Hbr st')|].
      revert Hce. unfold create_entry, malloc.
      rewrite (Hbr st' eq_refl).
      cbn [CreateFile list_head list_tail].
      destruct (list_head st) as [a|] eqn:Hlh.
      * destruct Hhead as (n & d0 & Hn & _). rewrite Htail.
        match goal with |- context [write_node (Some a) ?f ?s] =>
          destruct (write_node_live a n f s Hn) as (Hw & _); rewrite Hw
        end.
        intro H. injection H as <-. exact Hperr.
      * intro H. injection H as <-. exact Hperr.
Qed.

Lemma enumerate_inv (devs : list DevInfo) (st : State) :
  (forall d, In d devs -> D d) ->
  loop_inv D st ->
  exists st', enumerate pErr devs st = Some st' /\
              (loop_inv D st' \/ break_inv pErr st').
Proof.
  revert st. induction devs as [|d devs IH]; intros st HD Hinv.
  - exists st. split; [reflexivity | now left].
  - cbn [enumerate].
    destruct (loop_body_inv d st (HD d (or_introl eq_refl)) Hinv)
      as ([st'|st'] & -> & Hex & _).
    + apply IH; [|exact Hex]. intros x Hx. apply HD. now right.
    + exists st'. split; [reflexivity | now right].
Qed.

Lemma initial_inv : loop_inv D initial.
Proof. repeat split. intros []. Qed.

(** The enumeration up to the first reader that cannot be opened. *)
Lemma enumerate_until_denied (ds1 : list DevInfo) (d : DevInfo)
    (ds2 : list DevInfo) (st : State) :
  (forall x, D x) ->
  loop_inv D st ->
  (forall x, In x ds1 -> malloc_ok x = true /\ access_denied x = false) ->
  access_denied d = true ->
  exists st', enumerate pErr (ds1 ++ d :: ds2) st = Some st' /\
              enumerate pErr (ds1 ++ [d]) st = Some st' /\
              break_inv pErr st' /\
              pErr_value st' = if pErr then Some EACCES else None.
Proof.
  intro HD.
  revert st. induction ds1 as [|x ds1 IH]; intros st Hinv Hds1 Hd.
  - cbn [app enumerate].
    destruct (loop_body_inv d st (HD d) Hinv)
      as (ex & -> & Hex & Hcause & Hfwd).
    destruct (Hfwd Hd) as (st' & -> & Hp).
    exists st'. split; [reflexivity|]. split; [reflexivity|].
    split; [exact Hex | exact Hp].
  - cbn [app enumerate].
    destruct (loop_body_inv x st (HD x) Hinv)
      as (ex & -> & Hex & Hcause & _).
    destruct (Hds1 x (or_introl eq_refl)) as (Hm & Hna).
    destruct ex as [st1|st1].
    + apply IH; [exact Hex | | exact Hd].
      intros y Hy. apply Hds1. now right.
    + destruct (Hcause st1 eq_refl) as [(Hm' & _) | (Hd' & _)]; congruence.
Qed.

End Loop.

(** ** Formatted strings *)







(** ** The function as a whole *)

Section Whole.

Context {C : CRT}.
Variable pErr : bool.

Lemma entries_from_null (fuel : nat) (h : list (option RvtH_QueryEntry)) :
  entries_from fuel None h = [].
Proof. now destruct fuel. Qed.

Lemma returned_list_cases (D : DevInfo -> Prop) (st : State) :
  loop_inv D st \/ break_inv pErr st ->
  (list_head st = None /\ returned_list st = []) \/
  (exists n d, list_head st <> None /\ returned_list st = [n] /\
               D d /\ filled d n /\ pErr_value st = None).
Proof.
  intros [(_ & _ & Hperr & _ & Hhead) | (_ & Hnone & _)].
  - unfold returned_list. destruct (list_head st) as [a|].
    + destruct Hhead as (n & d & Hn & HD & Hf). right. exists n, d.
      split; [discriminate|].
      split; [|split; [exact HD | split; [exact Hf | exact Hperr]]].
      assert (Ha : (a < length (heap st))%nat)
        by (apply nth_error_Some; rewrite Hn; discriminate).
      destruct (length (heap st)) as [|k]; [lia|].
      cbn [entries_from]. rewrite Hn.
      destruct Hf as (-> & _). now rewrite entries_from_null.
    + left. split; [reflexivity | apply entries_from_null].
  - left. split; [exact Hnone|].
    unfold returned_list. rewrite Hnone. apply entries_from_null.
Qed.

(** Every run ends in a state that is between two turns or after a
    [break], with the device set released. *)
Lemma rvth_query_devices_run (D : DevInfo -> Prop)
    (devInfoSet : option (list DevInfo)) :
  (forall devs d, devInfoSet = Some devs -> In d devs -> D d) ->
  (devInfoSet = None /\
   rvth_query_devices pErr devInfoSet = Some (store_pErr pErr EIO initial))
  \/
  (exists devs st,
     devInfoSet = Some devs /\
     enumerate pErr devs initial = Some st /\
     rvth_query_devices pErr devInfoSet
       = Some (SetupDiDestroyDeviceInfoList st) /\
     (loop_inv D st \/ break_inv pErr st)).
Proof.
  intro HD.
  destruct devInfoSet as [devs|]; [right | left; now split].
  destruct (enumerate_inv pErr D devs initial
              (fun d Hd => HD devs d eq_refl Hd) (initial_inv D))
    as (st & Hst & Hinv).
  exists devs, st. unfold rvth_query_devices. rewrite Hst. now repeat split.
Qed.


(** X11: when the call returns, every handle it opened with [CreateFile]
    has been closed, and the device information set, if it was obtained,
    has been destroyed exactly once, as the last call. *)
Theorem rvth_query_devices_releases_handles
    (devInfoSet : option (list DevInfo)) :
  exists st,
    rvth_query_devices pErr devInfoSet = Some st /\
    open_handles st = [] /\
    (devInfoSet = None -> api_log st = []) /\
    (devInfoSet <> None ->
       exists l, api_log st = EvDestroyDeviceInfoList :: l /\
                 ~ In EvDestroyDeviceInfoList l).
Proof.
  destruct (rvth_query_devices_run (fun _ => True) devInfoSet
              (fun _ _ _ _ => I))
    as [(-> & ->) | (devs & st & -> & _ & -> & Hinv)].
  - eexists. split; [reflexivity|].
    unfold store_pErr. destruct pErr; cbn;
      (split; [reflexivity|]); (split; [reflexivity|]);
      intro H; now contradiction H.
  - eexists. split; [reflexivity|].
    cbn [SetupDiDestroyDeviceInfoList open_handles api_log].
    assert (H : open_handles st = [] /\
                ~ In EvDestroyDeviceInfoList (api_log st)).
    { destruct Hinv as [(Ho & _ & _ & Hl & _) | (Ho & _ & Hl & _)];
        now split. }
    destruct H as (Ho & Hl).
    split; [exact Ho|]. split; [discriminate|].
    intros _. exists (api_log st). now split.
Qed.



(** X14: when a reader cannot be opened because access is denied, and no
    [malloc] failed before it, the call returns NULL, with EACCES stored
    through [pErr] if one was given: the readers found before it are
    dropped, and the devices after it are not looked at. *)
Theorem rvth_query_devices_access_denied
    (ds1 : list DevInfo) (d : DevInfo) (ds2 : list DevInfo) :
  (forall x, In x ds1 -> malloc_ok x = true /\ access_denied x = false) ->
  access_denied d = true ->
  exists st,
    rvth_query_devices pErr (Some (ds1 ++ d :: ds2)) = Some st /\
    list_head st = None /\ returned_list st = [] /\
    pErr_value st = (if pErr then Some EACCES else None) /\
    rvth_query_devices pErr (Some (ds1 ++ [d])) = Some st.
Proof.
  intros Hds1 Hd.
  destruct (enumerate_until_denied pErr (fun _ => True) ds1 d ds2 initial
              (fun _ => I) (initial_inv _) Hds1 Hd)
    as (st & Hall & Hcut & Hbr & Hp).
  exists (SetupDiDestroyDeviceInfoList st).
  unfold rvth_query_devices. rewrite Hall, Hcut.
  split; [reflexivity|].
  destruct (returned_list_cases (fun _ => True) st (or_intror Hbr))
    as [(Hh & Hl) | (n & d0 & Hnn & _)].
  - repeat split; assumption.
  - destruct Hbr as (_ & Hh & _). contradiction.
Qed.

End Whole.



Lemma rvth_query_devices_access_denied_witness :
  exists st,
    rvth_query_devices (C := Sample.crt) true
      (Some (Sample.two_readers
               ++ Sample.locked_reader "USB\VID_057E&PID_0304\20054321"
               :: Sample.two_readers)) = Some st /\
    returned_list st = [] /\ pErr_value st = Some EACCES.
Proof.
  destruct (rvth_query_devices_access_denied (C := Sample.crt) true
              Sample.two_readers
              (Sample.locked_reader "USB\VID_057E&PID_0304\20054321")
              Sample.two_readers) as (st & Hrun & _ & Hl & Hp & _).
  - intros x [<- | [<- | []]]; split; reflexivity.
  - reflexivity.
  - exists st. split; [exact Hrun|]. split; [exact Hl | exact Hp].
Defined.

End QueryFacts.

(* ================================================================== *)
(** * TranslationManager::enumerate *)

Module TranslationFacts.

Import Translation.
Import Stdlib.Strings.String.StringSyntax.
#[local] Delimit Scope string_scope with string.

Lemma value_insert (key v k : QString) (m : QMap) :
  value k (insert key v m)
  = if String.eqb key k then Some v else value k m.
Proof.
  induction m as [|[k' v'] m IH]; cbn [insert value].
  - reflexivity.
  - destruct (String.eqb_spec k' key) as [->|Hne]; cbn [value].
    + destruct (String.eqb key k); reflexivity.
    + rewrite IH. destruct (String.eqb_spec k' k) as [->|Hk]; [|reflexivity].
      destruct (String.eqb_spec key k) as [->|]; [contradiction | reflexivity].
Qed.

Lemma keys_insert_absent (key v : QString) (m : QMap) :
  value key m = None -> map fst (insert key v m) = map fst m ++ [key].
Proof.
  induction m as [|[k' v'] m IH]; cbn [insert value map app]; [reflexivity|].
  destruct (String.eqb k' key); [discriminate|].
  intro H. cbn [map fst]. now rewrite IH.
Qed.

Lemma value_none_not_in (key : QString) (m : QMap) :
  value key m = None -> ~ In key (map fst m).
Proof.
  induction m as [|[k' v'] m IH]; cbn [value map In fst]; [tauto|].
  destruct (String.eqb_spec k' key) as [->|Hne]; [discriminate|].
  intros H [Heq | Hin]; [contradiction | now apply IH].
Qed.

Section Facts.

Context {Q : Qt}.

Lemma enumerate_files_value (locale : QString) (files : list QString)
    (tsMap : QMap) :
  value locale (enumerate_files files tsMap)
  = match value locale tsMap with
    | Some language => Some language
    | None => first_declaring locale files
    end.
Proof.
  revert tsMap. induction files as [|file files IH]; intro tsMap;
    cbn [enumerate_files first_declaring].
  - now destruct (value locale tsMap).
  - unfold declared. destruct (load file) as [ts|]; [|apply IH].
    unfold contains.
    destruct (value (ts "TranslationManager"%string "C"%string
                        "ts-locale"%string) tsMap) as [old|] eqn:Hold.
    + rewrite IH.
      destruct (String.eqb_spec
                  (ts "TranslationManager"%string "C"%string
                      "ts-locale"%string) locale) as [Heq|Hne];
        [|reflexivity].
      rewrite Heq in Hold. now rewrite Hold.
    + rewrite IH, value_insert.
      destruct (String.eqb_spec
                  (ts "TranslationManager"%string "C"%string
                      "ts-locale"%string) locale) as [Heq|Hne].
      * rewrite Heq in Hold. now rewrite Hold.
      * reflexivity.
Qed.

Lemma first_declaring_app (locale : QString) (l1 l2 : list QString) :
  first_declaring locale (l1 ++ l2)
  = match first_declaring locale l1 with
    | Some language => Some language
    | None => first_declaring locale l2
    end.
Proof.
  induction l1 as [|f l1 IH]; cbn [app first_declaring]; [reflexivity|].
  destruct (declared f) as [[l language]|]; [|exact IH].
  destruct (String.eqb l locale); [reflexivity | exact IH].
Qed.

Lemma enumerate_paths_value (locale : QString) (pathList : list QString)
    (tsMap : QMap) :
  value locale (enumerate_paths pathList tsMap)
  = match value locale tsMap with
    | Some language => Some language
    | None => first_declaring locale (visited pathList)
    end.
Proof.
  revert tsMap. induction pathList as [|path pathList IH]; intro tsMap;
    cbn [enumerate_paths visited flat_map first_declaring].
  - now destruct (value locale tsMap).
  - rewrite IH, enumerate_files_value, first_declaring_app.
    destruct (value locale tsMap); [reflexivity|].
    fold (visited pathList).
    now destruct (first_declaring locale
                    (entryInfoList path nameFilters filters)).
Qed.

Lemma enumerate_files_keys (files : list QString) (tsMap : QMap) :
  NoDup (map fst tsMap) ->
  NoDup (map fst (enumerate_files files tsMap)) /\
  (length (enumerate_files files tsMap) <= length tsMap + length files)%nat.
Proof.
  revert tsMap. induction files as [|file files IH]; intros tsMap Hnd;
    cbn [enumerate_files length].
  - split; [exact Hnd | lia].
  - destruct (load file) as [ts|].
    + unfold contains.
      destruct (value (ts "TranslationManager"%string "C"%string
                          "ts-locale"%string) tsMap) eqn:Hold.
      * destruct (IH tsMap Hnd). split; [assumption | lia].
      * match goal with |- context [insert ?k ?v tsMap] =>
          destruct (IH (insert k v tsMap)) as (H1 & H2);
          [ rewrite keys_insert_absent by exact Hold;
            apply NoDup_app; repeat split;
            [ exact Hnd | repeat constructor; intros []
            | intros x Hx [<- | []];
              exact (value_none_not_in _ _ Hold Hx) ]
          | split; [exact H1|];
            assert (Hlen : length (insert k v tsMap) = S (length tsMap))
              by (rewrite <- (length_map fst (insert k v tsMap)),
                    keys_insert_absent, length_app, length_map by exact Hold;
                  cbn [length]; lia);
            lia ]
        end.
    + destruct (IH tsMap Hnd). split; [assumption | lia].
Qed.

Lemma enumerate_paths_keys (pathList : list QString) (tsMap : QMap) :
  NoDup (map fst tsMap) ->
  NoDup (map fst (enumerate_paths pathList tsMap)) /\
  (length (enumerate_paths pathList tsMap)
   <= length tsMap + length (visited pathList))%nat.
Proof.
  revert tsMap. induction pathList as [|path pathList IH]; intros tsMap Hnd;
    cbn [enumerate_paths visited flat_map].
  - split; [exact Hnd | cbn; lia].
  - destruct (enumerate_files_keys
                (entryInfoList path nameFilters filters) tsMap Hnd)
      as (H1 & H2).
    destruct (IH _ H1) as (H3 & H4).
    split; [exact H3|]. rewrite length_app. fold (visited pathList). lia.
Qed.

(** X15: for every locale, the language [enumerate] reports is the one
    declared by the first file, in the order of the search path and of
    each directory listing, that loads and declares that locale; a locale
    no loadable file declares is not in the map.  Files that fail to load
    and later files for a locale already seen change nothing. *)
Theorem enumerate_first_file_wins (pathList : list QString)
    (locale : QString) :
  value locale (enumerate pathList)
  = first_declaring locale (visited pathList).
Proof.
  unfold enumerate. now rewrite enumerate_paths_value.
Qed.

(** X16: the map [enumerate] returns has each locale once, and no more
    entries than files were visited. *)
Theorem enumerate_keys_distinct (pathList : list QString) :
  NoDup (map fst (enumerate pathList)) /\
  (length (enumerate pathList) <= length (visited pathList))%nat.
Proof.
  unfold enumerate.
  destruct (enumerate_paths_keys pathList []) as (H1 & H2);
    [constructor|].
  split; [exact H1 | exact H2].
Qed.

End Facts.

End TranslationFacts.
